(** * VeRoViz: shapepoint assembly and 2D geometry helpers

    A shallow embedding of [veroviz/getShapepoints2D.py] and of the geometry
    wrappers of [veroviz/utilities.py] ([getConvexHull], [isPointInPoly],
    [closestPointLoc2Path]).

    Conventions of the embedding.
    - Python floats are read as exact rationals ([Q]); equality of numbers is
      [==] on [Q].  Rounding, NaN and infinities are outside the model; a
      division whose divisor is zero raises [ZeroDivisionError], as Python's
      float division does.
    - A location is a Python list of numbers, [list Q]: [[lat; lon]] or
      [[lat; lon; alt]].  Indexing is fallible ([IndexError]).
    - Functions that print or raise live in the monad [Py]: the messages
      printed so far together with a returned value or a raised exception.
    - Collaborators that live outside these two source files (validation,
      geodesic distance, routing providers, scipy's hull, constants of
      [_common]) are variables of the sections below. *)

From Stdlib Require Import List String Ascii Bool Arith ZArith QArith Qabs Lia Lra Psatz.
From Stdlib Require Import Permutation.
Import ListNotations.
Open Scope string_scope.
Open Scope list_scope.
Open Scope Q_scope.

Set Implicit Arguments.

(** ** Python effects: printing and exceptions *)

Inductive exn : Type :=
| ZeroDivisionError
| TypeError
| IndexError
| KeyError
| UnboundLocalError
| QhullError.

Inductive Message : Type :=
| Text (s : string)
| OriginAway (lat lon distMeters : Q)
| DestinationAway (lat lon distMeters : Q).

Inductive Result (A : Type) : Type :=
| Return (a : A)
| Raise (e : exn).

Arguments Return {A} a.
Arguments Raise {A} e.

Definition Py (A : Type) : Type := (list Message * Result A)%type.

Definition ret {A} (a : A) : Py A := ([], Return a).

Definition raise {A} (e : exn) : Py A := ([], Raise e).

Definition print (m : Message) : Py unit := ([m], Return tt).

Definition after {A} (out : list Message) (c : Py A) : Py A :=
  match out with
  | [] => c
  | _ => (out ++ fst c, snd c)
  end.

Definition bind {A B} (c : Py A) (f : A -> Py B) : Py B :=
  match c with
  | (out, Return a) => after out (f a)
  | (out, Raise e) => (out, Raise e)
  end.

Notation "x <- c ;; k" := (bind c (fun x => k))
  (at level 61, c at next level, right associativity).
Notation "c ;;; k" := (bind c (fun _ => k))
  (at level 61, right associativity).

Definition printed {A} (c : Py A) : list Message := fst c.
Definition outcome {A} (c : Py A) : Result A := snd c.

(** ** Numbers, lists and strings as the code uses them *)

Definition Loc : Type := list Q.

Definition Qlt_bool (x y : Q) : bool := negb (Qle_bool y x).

(** [x / y] on floats. *)
Definition pydiv (x y : Q) : Py Q :=
  if Qeq_bool y 0 then raise ZeroDivisionError else ret (x / y).

(** [x / y] where [y] may be [None]. *)
Definition pydiv_opt (x : Q) (y : option Q) : Py Q :=
  match y with
  | None => raise TypeError
  | Some y => pydiv x y
  end.

(** [l[i]] for a non-negative index. *)
Definition getitem {A} (l : list A) (i : nat) : Py A :=
  match nth_error l i with
  | Some a => ret a
  | None => raise IndexError
  end.

(** [l[-1]]. *)
Definition getlast {A} (l : list A) : Py A :=
  getitem l (List.length l - 1).

(** [a == b] on lists of floats. *)
Fixpoint loc_eqb (a b : Loc) : bool :=
  match a, b with
  | [], [] => true
  | x :: a', y :: b' => Qeq_bool x y && loc_eqb a' b'
  | _, _ => false
  end.

Definition lower_ascii (c : ascii) : ascii :=
  let n := nat_of_ascii c in
  if (65 <=? n)%nat && (n <=? 90)%nat then ascii_of_nat (n + 32) else c.

(** [s.lower()] (ASCII letters). *)
Fixpoint lower (s : string) : string :=
  match s with
  | EmptyString => EmptyString
  | String c s' => String (lower_ascii c) (lower s')
  end.

(** [x in l] for strings. *)
Definition str_in (x : string) (l : list string) : bool :=
  existsb (String.eqb x) l.

Fixpoint Qsum (l : list Q) : Q :=
  match l with
  | [] => 0
  | x :: l' => x + Qsum l'
  end.

(** [for i in range(start, start + count): state = body(i, state)]. *)
Fixpoint for_range {S : Type} (start count : nat) (body : nat -> S -> Py S) (s : S)
  : Py S :=
  match count with
  | O => ret s
  | Datatypes.S k => s' <- body start s ;; for_range (Datatypes.S start) k body s'
  end.

(** A Python dict with string keys and values, as an association list. *)
Definition Dict : Type := list (string * string).

Fixpoint dict_get (d : Dict) (k : string) : Py string :=
  match d with
  | [] => raise KeyError
  | (k', v) :: d' => if String.eqb k k' then ret v else dict_get d' k
  end.

(** [d[k]] where [d] may be [None]. *)
Definition subscript (d : option Dict) (k : string) : Py string :=
  match d with
  | None => raise TypeError
  | Some d => dict_get d k
  end.

(** [a and b], where evaluating [b] may raise. *)
Definition pyand (a : bool) (b : Py bool) : Py bool :=
  if a then b else ret false.

(** ** The two direct path rules of getShapepoints2D.py *)

Definition Route : Type := (list Loc * list Q * list Q)%type.

Section DirectRules.

(** [veroviz._geometry.geoDistance2D]: geodesic distance in meters between
    two locations, altitude ignored.  Not part of these source files. *)
Variable geoDistance2D : Loc -> Loc -> Q.

Definition _eucGetShapepointsTimeDist
    (startLoc endLoc : Loc) (speedMPS expDurationSec : option Q) : Py Route :=
  let path := [startLoc; endLoc] in
  let d1 := geoDistance2D startLoc endLoc in
  let dist := [0; d1] in
  time <- match expDurationSec with
          | Some D => ret [0; D]
          | None => t1 <- pydiv_opt d1 speedMPS ;; ret [0; t1]
          end ;;
  ret (path, time, dist).

Definition _manGetShapepointsTimeDist
    (startLoc endLoc : Loc) (speedMPS expDurationSec : option Q)
    (verticalFirst : bool) : Py Route :=
  pd <- (if verticalFirst then
           e0 <- getitem endLoc 0 ;;
           s1 <- getitem startLoc 1 ;;
           let corner := [e0; s1] in
           ret ([startLoc; corner; endLoc],
                [0; geoDistance2D startLoc corner; geoDistance2D corner endLoc])
         else
           s0 <- getitem startLoc 0 ;;
           e1 <- getitem endLoc 1 ;;
           let corner := [s0; e1] in
           ret ([startLoc; corner; endLoc],
                [0; geoDistance2D startLoc corner; geoDistance2D corner endLoc])) ;;
  let '(path, dist) := pd in
  d1 <- getitem dist 1 ;;
  d2 <- getitem dist 2 ;;
  time <- match expDurationSec with
          | Some D =>
              t1 <- pydiv (D * d1) (d1 + d2) ;;
              t2 <- pydiv (D * d2) (d1 + d2) ;;
              ret [0; t1; t2]
          | None =>
              t1 <- pydiv_opt d1 speedMPS ;;
              t2 <- pydiv_opt d2 speedMPS ;;
              ret [0; t1; t2]
          end ;;
  ret (path, time, dist).

End DirectRules.

(** ** Rows of the Assignments dataframe *)

(** The display arguments, copied unchanged onto every row. *)
Record Display : Type := {
  leafletColor : string;
  leafletWeight : Z;
  leafletStyle : string;
  leafletOpacity : Q;
  useArrows : bool;
  modelScale : Z;
  modelMinPxSize : Z;
  cesiumColor : string;
  cesiumWeight : Z;
  cesiumStyle : string;
  cesiumOpacity : Q
}.

Record Row : Type := {
  odID : Z;
  objectID : option string;
  modelFile : option string;
  startTimeSec : Q;
  startLat : Q;
  startLon : Q;
  startAltMeters : Q;
  endTimeSec : Q;
  endLat : Q;
  endLon : Q;
  endAltMeters : Q;
  display : Display
}.

(** The triple [[valFlag, errorMsg, warningMsg]] every validator returns. *)
Record Validation : Type := {
  valFlag : bool;
  errorMsg : string;
  warningMsg : string
}.

(** [print(errorMsg); return] / [print(warningMsg)] at the head of every
    public function. *)
Definition report_warning (show : bool) (v : Validation) : Py unit :=
  if show && negb (String.eqb (warningMsg v) "") then print (Text (warningMsg v))
  else ret tt.

Record LocDict : Type := { lat : Q; lon : Q; alt : Q }.

(** Modelled from the spec: [veroviz._internal.loc2Dict] is not among the
    source files.  Section 3 of the specification gives a location as
    (latitude, longitude, optional altitude with default 0); the dictionary
    has the keys ['lat'], ['lon'] and ['alt'] the caller reads. *)
Definition loc2Dict (loc : Loc) : Py LocDict :=
  la <- getitem loc 0 ;;
  lo <- getitem loc 1 ;;
  ret {| lat := la; lon := lo; alt := nth 2 loc 0 |}.

(** Modelled from the spec: [veroviz._internal.locs2Dict], the same
    conversion for every point of a path, in order. *)
Fixpoint locs2Dict (path : list Loc) : Py (list LocDict) :=
  match path with
  | [] => ret []
  | p :: path' =>
      d <- loc2Dict p ;;
      ds <- locs2Dict path' ;;
      ret (d :: ds)
  end.

(** ** Time redistribution *)

Section Redistribution.

Variable geoDistance2D : Loc -> Loc -> Q.

(** Geodesic length of every segment of a path, in travel order. *)
Definition segmentLengths (path : list Loc) : list Q :=
  map (fun ab => geoDistance2D (fst ab) (snd ab)) (combine path (tl path)).

(** All of [D] on the final one of [n] segments. *)
Definition allOnFinal (D : Q) (n : nat) : list Q :=
  match n with
  | O => []
  | S k => repeat 0 k ++ [D]
  end.

(** Modelled from the spec: [veroviz._internal.distributeTimeDist] is not
    among the source files.  Section 4.3: each segment's new time is
    [D * length[i] / totalLength]; when [totalLength == 0] the whole of [D]
    goes to the final segment (the choice recorded in section 9).  The two
    returned lists carry a leading 0 at index 0, as the caller reads them
    from index 1 and needs one entry per path point. *)
Definition distributeTimeDist (path : list Loc) (totalTime : Q)
  : list Q * list Q :=
  let segs := segmentLengths path in
  let totalLength := Qsum segs in
  let newTime :=
    if Qeq_bool totalLength 0 then allOnFinal totalTime (List.length segs)
    else map (fun d => totalTime * d / totalLength) segs in
  (0 :: newTime, 0 :: segs).

End Redistribution.

(** ** getShapepoints2D *)

Section Shapepoints.

(** Collaborators outside the two source files. *)
Variable geoDistance2D : Loc -> Loc -> Q.
Variable valGetShapepoints2D :
  Z -> option string -> option string -> Loc -> Loc -> Q -> option Q ->
  string -> option Q -> Display -> option string -> option Dict -> Validation.
Variable VRV_SETTING_SHOWWARNINGMESSAGE : bool.
Variable VRV_DEFAULT_DISTANCE_ERROR_TOLERANCE : Q.
Variable dataProviderDictionary : option string -> option string.
Variable replaceBackslashToSlash : option string -> option string.
Variable pgrGetShapepointsTimeDist : Loc -> Loc -> string -> Py Route.
Variable osrmGetShapepointsTimeDist : Loc -> Loc -> Py Route.
Variable mqGetShapepointsTimeDist : Loc -> Loc -> string -> string -> Py Route.
Variable orsGetShapepointsTimeDist : Loc -> Loc -> string -> string -> Py Route.

(** [dataProviderDictionary[dataProvider] == name]. *)
Definition providerIs (dataProvider : option string) (name : string) : Py bool :=
  match dataProviderDictionary dataProvider with
  | None => raise KeyError
  | Some v => ret (String.eqb v name)
  end.

(** Lines 271-287: the chain of route-type / provider cases.  [None] is the
    bare [return] of the final [else]. *)
Definition routeCases (startLoc endLoc : Loc) (speedMPS expDurationSec : option Q)
    (routeType : string) (dataProvider : option string)
    (dataProviderArgs : option Dict) : Py (option Route) :=
  if String.eqb routeType "euclidean2d" then
    r <- _eucGetShapepointsTimeDist geoDistance2D startLoc endLoc speedMPS expDurationSec ;;
    ret (Some r)
  else if String.eqb routeType "manhattan" then
    r <- _manGetShapepointsTimeDist geoDistance2D startLoc endLoc speedMPS expDurationSec true ;;
    ret (Some r)
  else
    c1 <- pyand (String.eqb routeType "fastest") (providerIs dataProvider "pgrouting") ;;
    if c1 then
      databaseName <- subscript dataProviderArgs "databaseName" ;;
      r <- pgrGetShapepointsTimeDist startLoc endLoc databaseName ;;
      ret (Some r)
    else
    c2 <- pyand (String.eqb routeType "fastest") (providerIs dataProvider "osrm-online") ;;
    if c2 then
      r <- osrmGetShapepointsTimeDist startLoc endLoc ;;
      ret (Some r)
    else
    c3 <- pyand (str_in routeType ["fastest"; "shortest"; "pedestrian"])
                (providerIs dataProvider "mapquest") ;;
    if c3 then
      APIkey <- subscript dataProviderArgs "APIkey" ;;
      r <- mqGetShapepointsTimeDist startLoc endLoc routeType APIkey ;;
      ret (Some r)
    else
    c4 <- pyand (str_in routeType ["fastest"; "pedestrian"; "cycling"; "truck"])
                (providerIs dataProvider "ors-online") ;;
    if c4 then
      APIkey <- subscript dataProviderArgs "APIkey" ;;
      r <- orsGetShapepointsTimeDist startLoc endLoc routeType APIkey ;;
      ret (Some r)
    else
      ret None.

(** [acc = [first]; for i in range(1, n): acc.append(acc[i - 1] + xs[i])]. *)
Definition accumulate (first : Q) (xs : list Q) (n : nat) : Py (list Q) :=
  for_range 1 (n - 1)
    (fun i acc =>
       a <- getitem acc (i - 1) ;;
       x <- getitem xs i ;;
       ret (acc ++ [a + x]))
    [first].

(** Lines 329-353: one row per consecutive pair of path points. *)
Definition assignmentRows (odID : Z) (objectID modelFile : option string)
    (style : Display) (accTime : list Q) (dicPath : list LocDict) (n : nat)
  : Py (list Row) :=
  for_range 1 (n - 1)
    (fun i assignments =>
       t0 <- getitem accTime (i - 1) ;;
       p0 <- getitem dicPath (i - 1) ;;
       t1 <- getitem accTime i ;;
       p1 <- getitem dicPath i ;;
       ret (assignments ++
            [Build_Row odID objectID modelFile
               t0 (lat p0) (lon p0) (alt p0)
               t1 (lat p1) (lon p1) (alt p1) style]))
    [].

Definition getShapepoints2D (odID : Z) (objectID modelFile : option string)
    (startLoc endLoc : Loc) (startTimeSec : Q) (expDurationSec : option Q)
    (routeType : string) (speedMPS : option Q) (style : Display)
    (dataProvider : option string) (dataProviderArgs : option Dict)
  : Py (option (list Row)) :=
  let v := valGetShapepoints2D odID objectID modelFile startLoc endLoc
             startTimeSec expDurationSec routeType speedMPS style
             dataProvider dataProviderArgs in
  if negb (valFlag v) then
    print (Text (errorMsg v)) ;;;
    ret None
  else
    report_warning VRV_SETTING_SHOWWARNINGMESSAGE v ;;;
    let modelFile := replaceBackslashToSlash modelFile in
    let dataProvider := option_map lower dataProvider in
    let routeType := lower routeType in
    if negb (loc_eqb startLoc endLoc) then
      route <- routeCases startLoc endLoc speedMPS expDurationSec
                 routeType dataProvider dataProviderArgs ;;
      match route with
      | None => ret None
      | Some (path, time, dist) =>
          first <- getitem path 0 ;;
          let distOri := geoDistance2D startLoc first in
          (if Qle_bool VRV_DEFAULT_DISTANCE_ERROR_TOLERANCE distOri then
             la <- getitem startLoc 0 ;;
             lo <- getitem startLoc 1 ;;
             print (OriginAway la lo distOri)
           else ret tt) ;;;
          final <- getlast path ;;
          let distDes := geoDistance2D final endLoc in
          (if Qle_bool VRV_DEFAULT_DISTANCE_ERROR_TOLERANCE distDes then
             la <- getitem endLoc 0 ;;
             lo <- getitem endLoc 1 ;;
             print (DestinationAway la lo distDes)
           else ret tt) ;;;
          accDist <- accumulate 0 dist (List.length dist) ;;
          td <- match expDurationSec with
                | Some D => ret (distributeTimeDist geoDistance2D path D)
                | None =>
                    match speedMPS with
                    | Some speed =>
                        total <- getitem accDist (List.length accDist - 1) ;;
                        newExpDurationSec <- pydiv total speed ;;
                        ret (distributeTimeDist geoDistance2D path newExpDurationSec)
                    | None => ret (time, dist)
                    end
                end ;;
          let '(time, dist) := td in
          accTime <- accumulate startTimeSec time (List.length dist) ;;
          dicPath <- locs2Dict path ;;
          assignments <- assignmentRows odID objectID modelFile style
                           accTime dicPath (List.length path) ;;
          ret (Some assignments)
      end
    else
      dicStartLoc <- loc2Dict startLoc ;;
      ret (Some [Build_Row odID objectID modelFile
                   startTimeSec
                   (lat dicStartLoc) (lon dicStartLoc) (alt dicStartLoc)
                   (match expDurationSec with
                    | Some D => D + startTimeSec
                    | None => startTimeSec
                    end)
                   (lat dicStartLoc) (lon dicStartLoc) (alt dicStartLoc)
                   style]).

End Shapepoints.

(** ** getConvexHull *)

Section ConvexHull.

Variable valGetConvexHull : list Loc -> Validation.
Variable VRV_SETTING_SHOWWARNINGMESSAGE : bool.

(** [scipy.spatial.ConvexHull(points).vertices]: the indices of the input
    points that are vertices of the hull, in hull order.  An external
    library call; it raises on input it cannot handle. *)
Variable ConvexHull_vertices : list Loc -> Py (list nat).

(** [[locs[i] for i in vertices]]. *)
Fixpoint pick (locs : list Loc) (vertices : list nat) : Py (list Loc) :=
  match vertices with
  | [] => ret []
  | i :: vertices' =>
      p <- getitem locs i ;;
      ps <- pick locs vertices' ;;
      ret (p :: ps)
  end.

(** Lines 1281-1283, shared by the geometry wrappers: keep [[p[0], p[1]]]
    of every point. *)
Definition strip2D (locs : list Loc) : Py (list Loc) :=
  for_range 0 (List.length locs)
    (fun i locs2D =>
       p <- getitem locs i ;;
       p0 <- getitem p 0 ;;
       p1 <- getitem p 1 ;;
       ret (locs2D ++ [[p0; p1]]))
    [].

(** The tolerance of line 1290, in degrees. *)
Definition rematchTolerance : Q := 1 # 10000.

(** The test of line 1290 for hull vertex [c] and 2D input point [l]. *)
Definition rematches (c l : Loc) : Py bool :=
  c0 <- getitem c 0 ;;
  l0 <- getitem l 0 ;;
  pyand (Qlt_bool (Qabs (c0 - l0)) rematchTolerance)
        (c1 <- getitem c 1 ;;
         l1 <- getitem l 1 ;;
         ret (Qlt_bool (Qabs (c1 - l1)) rematchTolerance)).

Definition getConvexHull (locs : list Loc) : Py (option (list Loc)) :=
  let v := valGetConvexHull locs in
  if negb (valFlag v) then
    print (Text (errorMsg v)) ;;;
    ret None
  else
    report_warning VRV_SETTING_SHOWWARNINGMESSAGE v ;;;
    locs2D <- strip2D locs ;;
    vertices <- ConvexHull_vertices locs2D ;;
    ch2D <- pick locs vertices ;;
    ch <- for_range 0 (List.length ch2D)
            (fun i ch =>
               for_range 0 (List.length locs2D)
                 (fun j ch =>
                    c <- getitem ch2D i ;;
                    l <- getitem locs2D j ;;
                    hit <- rematches c l ;;
                    if hit then
                      lj <- getitem locs j ;;
                      ret (ch ++ [lj])
                    else ret ch)
                 ch)
            [] ;;
    ret (Some ch).

End ConvexHull.

(** ** isPointInPoly *)

Definition c0 (p : Loc) : Q := nth 0 p 0.
Definition c1 (p : Loc) : Q := nth 1 p 0.

(** The edges of a polygon, the last vertex joined back to the first. *)
Definition closedEdges (poly : list Loc) : list (Loc * Loc) :=
  match poly with
  | [] => []
  | p :: rest => combine poly (rest ++ [p])
  end.

Definition between (x u v : Q) : bool :=
  (Qle_bool u x && Qle_bool x v) || (Qle_bool v x && Qle_bool x u).

(** [p] lies on the closed segment [a]-[b]: collinear with its ends and
    inside their bounding box. *)
Definition onSegment (p : Loc) (e : Loc * Loc) : bool :=
  let '(a, b) := e in
  Qeq_bool ((c0 b - c0 a) * (c1 p - c1 a) - (c1 b - c1 a) * (c0 p - c0 a)) 0
  && between (c0 p) (c0 a) (c0 b)
  && between (c1 p) (c1 a) (c1 b).

(** The ray from [p] towards larger first coordinate crosses edge [a]-[b]. *)
Definition rayCrosses (p : Loc) (e : Loc * Loc) : bool :=
  let '(a, b) := e in
  negb (Bool.eqb (Qlt_bool (c1 p) (c1 a)) (Qlt_bool (c1 p) (c1 b)))
  && Qlt_bool (c0 p) ((c0 b - c0 a) * (c1 p - c1 a) / (c1 b - c1 a) + c0 a).

(** Modelled from the spec: [veroviz._geometry.geoIsPointInPoly] is not among
    the source files.  Section 4.5: a ray-casting test in 2D in which a point
    exactly on an edge or vertex counts as inside. *)
Definition geoIsPointInPoly (loc : Loc) (poly : list Loc) : bool :=
  existsb (onSegment loc) (closedEdges poly)
  || Nat.odd (List.length (filter (rayCrosses loc) (closedEdges poly))).

Section PointInPoly.

Variable valIsPointInPoly : Loc -> list Loc -> Validation.
Variable VRV_SETTING_SHOWWARNINGMESSAGE : bool.

Definition isPointInPoly (loc : Loc) (poly : list Loc) : Py (option bool) :=
  let v := valIsPointInPoly loc poly in
  if negb (valFlag v) then
    print (Text (errorMsg v)) ;;;
    ret None
  else
    report_warning VRV_SETTING_SHOWWARNINGMESSAGE v ;;;
    l0 <- getitem loc 0 ;;
    l1 <- getitem loc 1 ;;
    let loc2D := [l0; l1] in
    poly2D <- strip2D poly ;;
    let inside := geoIsPointInPoly loc2D poly2D in
    ret (Some inside).

End PointInPoly.

(** ** closestPointLoc2Path

    The function writes into the list it is about to return
    ([minPoint[2] = 0]), and that list comes from a helper that may hand back
    one of its arguments.  The lists involved are therefore kept in a store:
    the caller's [loc], the caller's path points, and the lists the helper
    built itself.  The caller's [loc] and path points are taken to be
    separate list objects. *)

Record Store : Type := {
  locObj : Loc;
  pathObjs : list Loc;
  builtObjs : list Loc
}.

Inductive Ref : Type :=
| AtLoc
| AtPath (i : nat)
| AtBuilt (k : nat).

(** What [geoClosestPointLoc2Line(loc, line)] hands back: one of the list
    objects it was given, or a list of its own making. *)
Inductive Handed : Type :=
| TheLoc
| LineStart
| LineEnd
| Built (p : Loc).

Definition read (s : Store) (r : Ref) : Loc :=
  match r with
  | AtLoc => locObj s
  | AtPath i => nth i (pathObjs s) []
  | AtBuilt k => nth k (builtObjs s) []
  end.

Fixpoint setitem {A} (l : list A) (i : nat) (v : A) : list A :=
  match l, i with
  | [], _ => []
  | _ :: l', O => v :: l'
  | x :: l', S i' => x :: setitem l' i' v
  end.

Definition write (s : Store) (r : Ref) (p : Loc) : Store :=
  match r with
  | AtLoc => {| locObj := p; pathObjs := pathObjs s; builtObjs := builtObjs s |}
  | AtPath i =>
      {| locObj := locObj s; pathObjs := setitem (pathObjs s) i p;
         builtObjs := builtObjs s |}
  | AtBuilt k =>
      {| locObj := locObj s; pathObjs := pathObjs s;
         builtObjs := setitem (builtObjs s) k p |}
  end.

(** What the caller holds after the call: the returned pair (or
    [(None, None)]), and its own [loc] and [path] as they now are. *)
Record Closest : Type := {
  found : option (Loc * Q);
  locAfter : Loc;
  pathAfter : list Loc
}.

Section ClosestPoint.

Variable valClosestPointLoc2Path : Loc -> list Loc -> Validation.
Variable VRV_SETTING_SHOWWARNINGMESSAGE : bool.

(** [veroviz._geometry.geoMinDistLoc2Line] and [geoClosestPointLoc2Line]:
    distance from a location to a segment, and the nearest point of the
    segment.  Not part of these source files. *)
Variable geoMinDistLoc2Line : Loc -> list Loc -> Q.
Variable geoClosestPointLoc2Line : Loc -> list Loc -> Handed.

(** Loop state: the store, [distMeters] ([None] is [float('inf')]) and
    [minPoint] ([None] while the name is unbound). *)
Definition Scan : Type := (Store * option Q * option Ref)%type.

Definition lessThan (x : Q) (bound : option Q) : bool :=
  match bound with
  | None => true
  | Some d => Qlt_bool x d
  end.

(** The object a helper result denotes, for the line between path points
    [a] and [b]. *)
Definition receive (s : Store) (a b : nat) (h : Handed) : Store * Ref :=
  match h with
  | TheLoc => (s, AtLoc)
  | LineStart => (s, AtPath a)
  | LineEnd => (s, AtPath b)
  | Built p =>
      ({| locObj := locObj s; pathObjs := pathObjs s;
          builtObjs := builtObjs s ++ [p] |},
       AtBuilt (List.length (builtObjs s)))
  end.

(** Lines 1832-1839, for the line [lstLine[i]]. *)
Definition scanLine (lstLine : list (nat * nat)) (i : nat) (st : Scan) : Py Scan :=
  let '(s, distMeters, minPoint) := st in
  ab <- getitem lstLine i ;;
  let '(a, b) := ab in
  let line := [read s (AtPath a); read s (AtPath b)] in
  let tmpDistMeters := geoMinDistLoc2Line (locObj s) line in
  let '(s, distMeters, minPoint) :=
    if lessThan tmpDistMeters distMeters then
      let '(s', r) := receive s a b (geoClosestPointLoc2Line (locObj s) line) in
      (s', Some tmpDistMeters, Some r)
    else (s, distMeters, minPoint) in
  match minPoint with
  | None => raise UnboundLocalError
  | Some r =>
      if (List.length (read s r) =? 3)%nat then
        ret (write s r (setitem (read s r) 2 0), distMeters, minPoint)
      else ret (s, distMeters, minPoint)
  end.

Definition closestPointLoc2Path (loc : Loc) (path : list Loc) : Py Closest :=
  let v := valClosestPointLoc2Path loc path in
  if negb (valFlag v) then
    print (Text (errorMsg v)) ;;;
    ret {| found := None; locAfter := loc; pathAfter := path |}
  else
    report_warning VRV_SETTING_SHOWWARNINGMESSAGE v ;;;
    lstLine <- for_range 1 (List.length path - 1)
                 (fun i lstLine => ret (lstLine ++ [((i - 1)%nat, i)]))
                 [] ;;
    st <- for_range 0 (List.length lstLine) (scanLine lstLine)
            ({| locObj := loc; pathObjs := path; builtObjs := [] |}, None, None) ;;
    let '(s, distMeters, minPoint) := st in
    match minPoint, distMeters with
    | Some r, Some d =>
        ret {| found := Some (read s r, d);
               locAfter := locObj s; pathAfter := pathObjs s |}
    | _, _ => raise UnboundLocalError
    end.

End ClosestPoint.

(** ** convertArea (utilities.py, lines 256-322)

    The unit dictionary and the conversion constants live in [_common],
    outside these source files: they are variables here. *)

(** [table[key]] for the unit dictionary. *)
Definition lookup (table : string -> option string) (key : string) : Py string :=
  match table key with
  | Some v => ret v
  | None => raise KeyError
  end.

Section AreaConversion.

Variable VRV_SETTING_SHOWWARNINGMESSAGE : bool.
Variable valConvertArea : Q -> string -> string -> Validation.
Variable areaUnitsDictionary : string -> option string.
Variable VRV_CONST_SQFT_PER_SQMETER : Q.
Variable VRV_CONST_SQMILES_PER_SQMETER : Q.
Variable VRV_CONST_SQKM_PER_SQMETER : Q.

Definition convertArea (area : Q) (fromUnits toUnits : string) : Py (option Q) :=
  let v := valConvertArea area fromUnits toUnits in
  if negb (valFlag v) then
    print (Text (errorMsg v)) ;;;
    ret None
  else
    report_warning VRV_SETTING_SHOWWARNINGMESSAGE v ;;;
    let fromUnits := lower fromUnits in
    fromUnits <- lookup areaUnitsDictionary fromUnits ;;
    tmpArea <- (if String.eqb fromUnits "sqft" then
                  pydiv area VRV_CONST_SQFT_PER_SQMETER
                else if String.eqb fromUnits "sqmi" then
                  pydiv area VRV_CONST_SQMILES_PER_SQMETER
                else if String.eqb fromUnits "sqkm" then
                  pydiv area VRV_CONST_SQKM_PER_SQMETER
                else ret area) ;;
    let toUnits := lower toUnits in
    toUnits <- lookup areaUnitsDictionary toUnits ;;
    let convArea :=
      if String.eqb toUnits "sqft" then tmpArea * VRV_CONST_SQFT_PER_SQMETER
      else if String.eqb toUnits "sqmi" then tmpArea * VRV_CONST_SQMILES_PER_SQMETER
      else if String.eqb toUnits "sqkm" then tmpArea * VRV_CONST_SQFT_PER_SQMETER
      else tmpArea in
    ret (Some convArea).

End AreaConversion.

(** ** Lengths: lengthFromNodeSeq, distance2D, distancePath2D *)

(** [total = 0; for i in range(0, n): total += term(i)]. *)
Definition sumLoop (n : nat) (term : nat -> Py Q) : Py Q :=
  for_range 0 n (fun i total => x <- term i ;; ret (total + x)) 0.

Section Lengths.

Variable VRV_SETTING_SHOWWARNINGMESSAGE : bool.
Variable geoDistance2D : Loc -> Loc -> Q.
Variable valLengthFromNodeSeq : list Z -> (Z * Z -> option Q) -> Validation.
Variable valDistance2D : Loc -> Loc -> Validation.
Variable valDistancePath2D : list Loc -> Validation.

(** [lengthDict] is a dictionary keyed by pairs of node IDs: its lookup. *)
Definition lengthFromNodeSeq (nodeSeq : list Z) (lengthDict : Z * Z -> option Q)
  : Py (option Q) :=
  let v := valLengthFromNodeSeq nodeSeq lengthDict in
  if negb (valFlag v) then
    print (Text (errorMsg v)) ;;;
    ret None
  else
    report_warning VRV_SETTING_SHOWWARNINGMESSAGE v ;;;
    length <- sumLoop (List.length nodeSeq - 1)
                (fun i =>
                   a <- getitem nodeSeq i ;;
                   b <- getitem nodeSeq (i + 1) ;;
                   match lengthDict (a, b) with
                   | Some x => ret x
                   | None => raise KeyError
                   end) ;;
    ret (Some length).

Definition distance2D (loc1 loc2 : Loc) : Py (option Q) :=
  let v := valDistance2D loc1 loc2 in
  if negb (valFlag v) then
    print (Text (errorMsg v)) ;;;
    ret None
  else
    report_warning VRV_SETTING_SHOWWARNINGMESSAGE v ;;;
    ret (Some (geoDistance2D loc1 loc2)).

Definition distancePath2D (path : list Loc) : Py (option Q) :=
  let v := valDistancePath2D path in
  if negb (valFlag v) then
    print (Text (errorMsg v)) ;;;
    ret None
  else
    report_warning VRV_SETTING_SHOWWARNINGMESSAGE v ;;;
    dist <- sumLoop (List.length path - 1)
              (fun i =>
                 a <- getitem path i ;;
                 b <- getitem path (i + 1) ;;
                 ret (geoDistance2D a b)) ;;
    ret (Some dist).

End Lengths.

(** ** closestNode2Loc and getMapBoundary *)

(** The columns of a Nodes dataframe these functions read: ['id'], ['lat']
    and ['lon']. *)
Record NodeRow : Type := { nodeID : Z; nodeLat : Q; nodeLon : Q }.

Section ClosestNode.

Variable VRV_SETTING_SHOWWARNINGMESSAGE : bool.
Variable geoDistance2D : Loc -> Loc -> Q.
Variable valDistance2D : Loc -> Loc -> Validation.
Variable valClosestNode2Loc : Loc -> list NodeRow -> Validation.

(** [[minNodeID, distMeters]]; in the second place [None] stands for
    [float('Inf')] beside a node ID, and for Python's None beside None. *)
Definition closestNode2Loc (loc : Loc) (nodes : list NodeRow)
  : Py (option Z * option Q) :=
  let v := valClosestNode2Loc loc nodes in
  if negb (valFlag v) then
    print (Text (errorMsg v)) ;;;
    ret (None, None)
  else
    report_warning VRV_SETTING_SHOWWARNINGMESSAGE v ;;;
    st <- for_range 0 (List.length nodes)
            (fun i (st : option Q * option Z) =>
               let '(distMeters, minNodeID) := st in
               node <- getitem nodes i ;;
               tmp <- distance2D VRV_SETTING_SHOWWARNINGMESSAGE geoDistance2D
                        valDistance2D loc [nodeLat node; nodeLon node] ;;
               match tmp with
               | None => raise TypeError
               | Some tmpDistMeters =>
                   if lessThan tmpDistMeters distMeters
                   then ret (Some tmpDistMeters, Some (nodeID node))
                   else ret (distMeters, minNodeID)
               end)
            (None, None) ;;
    let '(distMeters, minNodeID) := st in
    match minNodeID with
    | None => ret (None, None)
    | Some _ => ret (minNodeID, distMeters)
    end.

End ClosestNode.

(** [max(l)] and [min(l)] of a non-empty list: the first largest (smallest)
    element. *)
Definition Qmaximum (first : Q) (rest : list Q) : Q :=
  fold_left (fun m x => if Qlt_bool m x then x else m) rest first.

Definition Qminimum (first : Q) (rest : list Q) : Q :=
  fold_left (fun m x => if Qlt_bool x m then x else m) rest first.

(** What a call of getMapBoundary comes to.  [max()] of an empty list raises
    ValueError, which is not among the exceptions of [exn]: it is recorded
    here. *)
Inductive Boundary : Type :=
| RaisedValueError
| NoBoundary
| Rectangle (southEast northWest : Loc).

Section MapBoundary.

Variable VRV_SETTING_SHOWWARNINGMESSAGE : bool.
Variable valGetMapBoundary :
  option (list NodeRow) -> option (list Row) -> option (list Loc) -> Validation.

(** [nodes] is a Nodes dataframe, [arcs] an Arcs or Assignments dataframe
    (only its four coordinate columns are read), [locs] a list of
    locations; each may be None. *)
Definition getMapBoundary (nodes : option (list NodeRow))
    (arcs : option (list Row)) (locs : option (list Loc)) : Py Boundary :=
  let v := valGetMapBoundary nodes arcs locs in
  if negb (valFlag v) then
    print (Text (errorMsg v)) ;;;
    ret NoBoundary
  else
    report_warning VRV_SETTING_SHOWWARNINGMESSAGE v ;;;
    let allLats := [] in
    let allLons := [] in
    let '(allLats, allLons) :=
      match nodes with
      | Some nodes => (allLats ++ map nodeLat nodes, allLons ++ map nodeLon nodes)
      | None => (allLats, allLons)
      end in
    let '(allLats, allLons) :=
      match arcs with
      | Some arcs =>
          ((allLats ++ map startLat arcs) ++ map endLat arcs,
           (allLons ++ map startLon arcs) ++ map endLon arcs)
      | None => (allLats, allLons)
      end in
    ll <- match locs with
          | Some locs =>
              for_range 0 (List.length locs)
                (fun i (ll : list Q * list Q) =>
                   p <- getitem locs i ;;
                   p0 <- getitem p 0 ;;
                   p1 <- getitem p 1 ;;
                   ret (fst ll ++ [p0], snd ll ++ [p1]))
                (allLats, allLons)
          | None => ret (allLats, allLons)
          end ;;
    let '(allLats, allLons) := ll in
    match allLats, allLons with
    | lat1 :: lats, lon1 :: lons =>
        let maxLat := Qmaximum lat1 lats in
        let minLat := Qminimum lat1 lats in
        let maxLon := Qmaximum lon1 lons in
        let minLon := Qminimum lon1 lons in
        let '(maxLat, minLat) :=
          if Qlt_bool (Qabs (maxLat - minLat)) (1 # 10000)
          then (maxLat + (5 # 100), minLat - (5 # 100))
          else (maxLat, minLat) in
        let '(maxLon, minLon) :=
          if Qlt_bool (Qabs (maxLon - minLon)) (1 # 10000)
          then (maxLon + (5 # 100), minLon - (5 # 100))
          else (maxLon, minLon) in
        let maxLat := maxLat + (1 # 100) in
        let minLat := minLat - (1 # 100) in
        let maxLon := maxLon + (1 # 100) in
        let minLon := minLon - (1 # 100) in
        ret (Rectangle [minLat; maxLon] [maxLat; minLon])
    | _, _ => ret RaisedValueError
    end.

End MapBoundary.

(** ** Path wrappers: isPathInPoly, isPathCrossPoly, isPassPath *)

Section PathWrappers.

Variable VRV_SETTING_SHOWWARNINGMESSAGE : bool.
Variable valIsPathInPoly : list Loc -> list Loc -> Validation.
Variable valIsPathCrossPoly : list Loc -> list Loc -> Validation.
Variable valIsPassPath : Loc -> list Loc -> Q -> Validation.

(** The predicates of [veroviz._geometry], not part of these source files. *)
Variable geoIsPathInPoly : list Loc -> list Loc -> bool.
Variable geoIsPathCrossPoly : list Loc -> list Loc -> bool.
Variable geoIsPassPath : Loc -> list Loc -> Q -> bool.

Definition isPathInPoly (path poly : list Loc) : Py (option bool) :=
  let v := valIsPathInPoly path poly in
  if negb (valFlag v) then
    print (Text (errorMsg v)) ;;;
    ret None
  else
    report_warning VRV_SETTING_SHOWWARNINGMESSAGE v ;;;
    path2D <- strip2D path ;;
    poly2D <- strip2D poly ;;
    let inside := geoIsPathInPoly path2D poly2D in
    ret (Some inside).

Definition isPathCrossPoly (path poly : list Loc) : Py (option bool) :=
  let v := valIsPathCrossPoly path poly in
  if negb (valFlag v) then
    print (Text (errorMsg v)) ;;;
    ret None
  else
    report_warning VRV_SETTING_SHOWWARNINGMESSAGE v ;;;
    path2D <- strip2D path ;;
    poly2D <- strip2D poly ;;
    let crossFlag := geoIsPathCrossPoly path2D poly2D in
    ret (Some crossFlag).

Definition isPassPath (loc : Loc) (path : list Loc) (tolerance : Q)
  : Py (option bool) :=
  let v := valIsPassPath loc path tolerance in
  if negb (valFlag v) then
    print (Text (errorMsg v)) ;;;
    ret None
  else
    report_warning VRV_SETTING_SHOWWARNINGMESSAGE v ;;;
    l0 <- getitem loc 0 ;;
    l1 <- getitem loc 1 ;;
    let loc2D := [l0; l1] in
    path2D <- strip2D path ;;
    let passFlag := geoIsPassPath loc2D path2D tolerance in
    ret (Some passFlag).

End PathWrappers.

(** ** Stand-ins for running the model

    Concrete collaborators, used only to evaluate the model on explicit
    inputs. *)

(** A planar stand-in for [geoDistance2D]: the sum of the absolute
    differences in latitude and longitude.  It is symmetric, never negative,
    and zero exactly for equal latitude and longitude. *)
Definition planarDistance (a b : Loc) : Q :=
  Qabs (nth 0 a 0 - nth 0 b 0) + Qabs (nth 1 a 0 - nth 1 b 0).

(** The triple of an accepted call with nothing to report. *)
Definition accepted : Validation :=
  {| valFlag := true; errorMsg := ""; warningMsg := "" |}.

Definition acceptShapepoints
    (_ : Z) (_ _ : option string) (_ _ : Loc) (_ : Q) (_ : option Q)
    (_ : string) (_ : option Q) (_ : Display) (_ : option string)
    (_ : option Dict) : Validation := accepted.

(** The four provider names the route cases compare against. *)
Definition providerTable (dataProvider : option string) : option string :=
  match dataProvider with
  | Some p =>
      if str_in p ["pgrouting"; "osrm-online"; "mapquest"; "ors-online"]
      then Some p else None
  | None => None
  end.

(** A provider that answers with the straight segment and a minute of
    travel. *)
Definition straightRoute (startLoc endLoc : Loc) : Py Route :=
  ret ([startLoc; endLoc], [0; 60], [0; planarDistance startLoc endLoc]).

Definition plainStyle : Display :=
  {| leafletColor := "orange"; leafletWeight := 3; leafletStyle := "solid";
     leafletOpacity := 8 # 10; useArrows := true;
     modelScale := 100; modelMinPxSize := 75;
     cesiumColor := "Cesium.Color.ORANGE"; cesiumWeight := 3;
     cesiumStyle := "solid"; cesiumOpacity := 8 # 10 |}.

(** [getShapepoints2D] with the stand-ins above and a tolerance of 10 m. *)
Definition runShapepoints :=
  getShapepoints2D planarDistance acceptShapepoints true 10 providerTable
    (fun f => f)
    (fun s e _ => straightRoute s e)
    straightRoute
    (fun s e _ _ => straightRoute s e)
    (fun s e _ _ => straightRoute s e).

(** Stand-ins for the two segment helpers of [closestPointLoc2Path]: the
    nearer end of the segment, handed back as the very list the path holds. *)
Definition nearerEndDistance (loc : Loc) (line : list Loc) : Q :=
  let dA := planarDistance loc (nth 0 line []) in
  let dB := planarDistance loc (nth 1 line []) in
  if Qlt_bool dA dB then dA else dB.

Definition nearerEnd (loc : Loc) (line : list Loc) : Handed :=
  if Qlt_bool (planarDistance loc (nth 0 line []))
              (planarDistance loc (nth 1 line []))
  then LineStart else LineEnd.

(** A segment helper that copies the nearer end into a list of its own. *)
Definition nearerEndCopy (loc : Loc) (line : list Loc) : Handed :=
  if Qlt_bool (planarDistance loc (nth 0 line []))
              (planarDistance loc (nth 1 line []))
  then Built (nth 0 line []) else Built (nth 1 line []).

(** ** Vocabulary of the statements *)

Definition WellFormed (loc : Loc) : Prop := (2 <= List.length loc)%nat.

Section Vocabulary.

Variable geoDistance2D : Loc -> Loc -> Q.

(** What section 4.1 of the specification asks of the distance. *)
Definition SamePlaceIsZero : Prop :=
  forall a b : Loc, c0 a == c0 b -> c1 a == c1 b -> geoDistance2D a b == 0.

Definition PositiveApart : Prop :=
  forall a b : Loc,
    0 <= geoDistance2D a b /\
    (geoDistance2D a b == 0 -> c0 a == c0 b /\ c1 a == c1 b).

(** The corner and the two lengths, for [verticalFirst] and not. *)
Definition cornerOf (verticalFirst : bool) (startLoc endLoc : Loc) : Loc :=
  if verticalFirst then [c0 endLoc; c1 startLoc] else [c0 startLoc; c1 endLoc].

Definition len1 (vf : bool) (startLoc endLoc : Loc) : Q :=
  geoDistance2D startLoc (cornerOf vf startLoc endLoc).

Definition len2 (vf : bool) (startLoc endLoc : Loc) : Q :=
  geoDistance2D (cornerOf vf startLoc endLoc) endLoc.

(** The timing step of the grid rule has its divisor. *)
Definition TimingDefined (vf : bool) (startLoc endLoc : Loc)
    (speedMPS expDurationSec : option Q) : Prop :=
  match expDurationSec with
  | Some _ => ~ len1 vf startLoc endLoc + len2 vf startLoc endLoc == 0
  | None => exists speed, speedMPS = Some speed /\ ~ speed == 0
  end.

End Vocabulary.

(** The route-type / provider pairings of lines 275-285. *)
Definition roadNetworkTypes : list string :=
  ["fastest"; "shortest"; "pedestrian"; "cycling"; "truck"].







(** [first], [first + x1], [(first + x1) + x2], ... *)
Fixpoint runningSums (first : Q) (l : list Q) : list Q :=
  first :: match l with
           | [] => []
           | x :: l' => runningSums (first + x) l'
           end.

Definition nowhere : LocDict := {| lat := 0; lon := 0; alt := 0 |}.

(** The row the loop of lines 329-353 appends at index [i]. *)
Definition rowAt (odID : Z) (objectID modelFile : option string) (style : Display)
    (accTime : list Q) (dicPath : list LocDict) (i : nat) : Row :=
  let p0 := nth (i - 1) dicPath nowhere in
  let p1 := nth i dicPath nowhere in
  Build_Row odID objectID modelFile
    (nth (i - 1) accTime 0) (lat p0) (lon p0) (alt p0)
    (nth i accTime 0) (lat p1) (lon p1) (alt p1) style.

(** Consecutive rows meet: each row ends when and where the next starts. *)
Fixpoint Chained (rows : list Row) : Prop :=
  match rows with
  | r1 :: rest =>
      match rest with
      | r2 :: _ =>
          endTimeSec r1 = startTimeSec r2
          /\ endLat r1 = startLat r2 /\ endLon r1 = startLon r2
      | [] => True
      end /\ Chained rest
  | [] => True
  end.

Definition StartsAt (t : Q) (rows : list Row) : Prop :=
  match rows with
  | r :: _ => startTimeSec r = t
  | [] => True
  end.

(** A location without its altitude. *)
Definition flat (p : Loc) : Loc := [c0 p; c1 p].

(** [loc] lies on an edge of the polygon (its vertices included): at
    parameter [t] between the two ends of the edge. *)
Definition OnBoundary (loc : Loc) (poly : list Loc) : Prop :=
  exists a b t,
    In (a, b) (closedEdges poly) /\ 0 <= t <= 1
    /\ c0 loc == c0 a + t * (c0 b - c0 a)
    /\ c1 loc == c1 a + t * (c1 b - c1 a).

Definition acceptLocs (_ : list Loc) : Validation := accepted.
Definition acceptLocAndPath (_ : Loc) (_ : list Loc) : Validation := accepted.

(** A point that carries an altitude carries the altitude 0. *)
Definition AltitudeZero (p : Loc) : Prop :=
  List.length p = 3%nat -> nth 2 p 1 = 0.

(** The place in the path of the list the helper hands back when that list
    is one of the two ends of the first line, [path[0]] or [path[1]]. *)
Definition firstLineEnd (h : Handed) : option nat :=
  match h with
  | LineStart => Some 0%nat
  | LineEnd => Some 1%nat
  | TheLoc | Built _ => None
  end.

(** The helper never hands back one of its arguments. *)
Definition BuildsItsOwn (geoClosestPointLoc2Line : Loc -> list Loc -> Handed) : Prop :=
  forall loc line, exists p, geoClosestPointLoc2Line loc line = Built p.

(** [minPoint] is bound, and if it has three components the third is 0. *)
Definition Settled (st : Scan) : Prop :=
  exists s d r, st = (s, Some d, Some r) /\ AltitudeZero (read s r).

(** The caller's lists are as they were, and [minPoint], if bound, is a list
    of the helper's own making. *)
Definition Kept (loc : Loc) (path : list Loc) (st : Scan) : Prop :=
  let '(s, _, minPoint) := st in
  locObj s = loc /\ pathObjs s = path
  /\ forall r, minPoint = Some r -> exists k, r = AtBuilt k.

(** Input point [l] lies within the re-matching tolerance of hull vertex
    [c], in latitude and in longitude. *)
Definition near (c l : Loc) : bool :=
  Qlt_bool (Qabs (c0 c - c0 l)) rematchTolerance
  && Qlt_bool (Qabs (c1 c - c1 l)) rematchTolerance.

(** Three corners of a triangle and a fourth location inside it, half a
    ten-thousandth of a degree from the first corner in both coordinates. *)
Definition cornerA : Loc := [0; 0].
Definition cornerB : Loc := [1; 0].
Definition cornerC : Loc := [0; 1].
Definition inner : Loc := [5 # 100000; 5 # 100000].
Definition crowded : list Loc := [cornerA; cornerB; cornerC; inner].

(** The hull of [crowded], as scipy reports it: the three corners,
    counterclockwise. *)
Definition hullOfCrowded (_ : list Loc) : Py (list nat) :=
  ret [0%nat; 1%nat; 2%nat].


(** The inputs of the third docstring example of [closestPointLoc2Path]. *)
Definition loc3 : Loc := [4251 # 100; -783 # 10; 300].
Definition path2 : list Loc :=
  [[425 # 10; -784 # 10; 100]; [425 # 10; -786 # 10; 200]; [424 # 10; -787 # 10; 100]].

(** The polygon of the docstring examples of [isPointInPoly], and the
    location of its third example, halfway along the second edge. *)
Definition triangle : list Loc :=
  [[42; -78]; [421 # 10; -781 # 10]; [42; -781 # 10]].
Definition onEdge : Loc := [4205 # 100; -781 # 10].

(** Two locations at one latitude and longitude, at altitudes 0 and 5. *)
Definition ground : Loc := [1; 2; 0].
Definition above : Loc := [1; 2; 5].

(** What loc2Dict makes of a location. *)
Definition toDict (p : Loc) : LocDict :=
  {| lat := c0 p; lon := c1 p; alt := nth 2 p 0 |}.

(** Row [r] runs from location [p] to location [q]. *)
Definition Spans (p q : Loc) (r : Row) : Prop :=
  startLat r = c0 p /\ startLon r = c1 p /\ startAltMeters r = nth 2 p 0
  /\ endLat r = c0 q /\ endLon r = c1 q /\ endAltMeters r = nth 2 q 0.

(** Row [r] carries these identifiers and display arguments. *)
Definition Carries (id : Z) (object model : option string) (style : Display)
    (r : Row) : Prop :=
  odID r = id /\ objectID r = object /\ modelFile r = model /\ display r = style.


(** The distance closestNode2Loc measures to a node. *)
Definition nodeDistance (geoDistance2D : Loc -> Loc -> Q) (loc : Loc)
    (node : NodeRow) : Q :=
  geoDistance2D loc [nodeLat node; nodeLon node].

(** All latitudes and all longitudes getMapBoundary is given. *)
Definition allLatitudes (nodes : option (list NodeRow)) (arcs : option (list Row))
    (locs : option (list Loc)) : list Q :=
  (match nodes with Some nodes => map nodeLat nodes | None => [] end)
  ++ (match arcs with
      | Some arcs => map startLat arcs ++ map endLat arcs
      | None => []
      end)
  ++ (match locs with Some locs => map c0 locs | None => [] end).

Definition allLongitudes (nodes : option (list NodeRow)) (arcs : option (list Row))
    (locs : option (list Loc)) : list Q :=
  (match nodes with Some nodes => map nodeLon nodes | None => [] end)
  ++ (match arcs with
      | Some arcs => map startLon arcs ++ map endLon arcs
      | None => []
      end)
  ++ (match locs with Some locs => map c1 locs | None => [] end).

(** ** Stand-ins for the area conversion, lengths and map functions

    The unit table and constants of [veroviz._common], the validators and
    the path predicates of [veroviz._geometry] are not part of these source
    files; the ones below serve to evaluate the model on explicit inputs. *)

Definition areaUnits (units : string) : option string :=
  if str_in units ["sqft"; "sqfeet"] then Some "sqft"
  else if str_in units ["sqmi"; "sqmiles"] then Some "sqmi"
  else if str_in units ["sqkm"; "sqkilometers"] then Some "sqkm"
  else if str_in units ["sqm"; "sqmeters"] then Some "sqm"
  else None.

Definition acceptConversion (_ : Q) (_ _ : string) : Validation := accepted.
Definition acceptNodeSeq (_ : list Z) (_ : Z * Z -> option Q) : Validation :=
  accepted.
Definition acceptLocPair (_ _ : Loc) : Validation := accepted.
Definition acceptNodes (_ : Loc) (_ : list NodeRow) : Validation := accepted.
Definition acceptBoundary (_ : option (list NodeRow)) (_ : option (list Row))
    (_ : option (list Loc)) : Validation := accepted.
Definition acceptPaths (_ _ : list Loc) : Validation := accepted.
Definition acceptPass (_ : Loc) (_ : list Loc) (_ : Q) : Validation := accepted.

(** convertArea with the stand-ins. *)
Definition runConvertArea :=
  convertArea true acceptConversion areaUnits
    (107639 # 10000) (3861 # 10000000000) (1 # 1000000).

(** A length dictionary with the arcs 1-2, 2-3 and 3-4. *)
Definition roadLengths (ab : Z * Z) : option Q :=
  let '(a, b) := ab in
  if (a =? 1)%Z && (b =? 2)%Z then Some 10
  else if (a =? 2)%Z && (b =? 3)%Z then Some 20
  else if (a =? 3)%Z && (b =? 4)%Z then Some 5
  else None.

(** A Nodes dataframe of three rows; the second and the third are equally
    far from the origin. *)
Definition threeNodes : list NodeRow :=
  [{| nodeID := 1; nodeLat := 3; nodeLon := 4 |};
   {| nodeID := 2; nodeLat := 1; nodeLon := 2 |};
   {| nodeID := 3; nodeLat := 2; nodeLon := 1 |}].

(** Stand-ins for the path predicates: every point of the path in the
    polygon; a point of the path in it and another outside; a point of the
    path within the tolerance of the location. *)
Definition everyPointInside (path poly : list Loc) : bool :=
  forallb (fun p => geoIsPointInPoly p poly) path.

Definition somePointEachSide (path poly : list Loc) : bool :=
  existsb (fun p => geoIsPointInPoly p poly) path
  && existsb (fun p => negb (geoIsPointInPoly p poly)) path.

Definition somePointNear (loc : Loc) (path : list Loc) (tolerance : Q) : bool :=
  existsb (fun p => Qle_bool (planarDistance loc p) tolerance) path.

(** A path in [triangle], with altitudes and without. *)
Definition pathHigh : list Loc :=
  [[4201 # 100; -7802 # 100; 10]; [4205 # 100; -7808 # 100; 20]].
Definition pathLow : list Loc :=
  [[4201 # 100; -7802 # 100]; [4205 # 100; -7808 # 100; 5]].

(** * Properties *)

(** ** The monad *)

Lemma bind_ret {A B} (a : A) (f : A -> Py B) : bind (ret a) f = f a.
Proof. reflexivity. Qed.

Lemma bind_raise {A B} (e : exn) (f : A -> Py B) : bind (raise e) f = raise e.
Proof. reflexivity. Qed.

Lemma outcome_after {A} (out : list Message) (c : Py A) :
  outcome (after out c) = outcome c.
Proof. destruct out; reflexivity. Qed.

Lemma printed_after {A} (out : list Message) (c : Py A) :
  printed (after out c) = out ++ printed c.
Proof. destruct out; reflexivity. Qed.

Lemma outcome_bind {A B} (c : Py A) (f : A -> Py B) :
  outcome (bind c f) =
  match outcome c with
  | Return a => outcome (f a)
  | Raise e => Raise e
  end.
Proof.
  destruct c as [out [a | e]]; simpl.
  - apply outcome_after.
  - reflexivity.
Qed.

Lemma printed_bind {A B} (c : Py A) (f : A -> Py B) :
  printed (bind c f) =
  match outcome c with
  | Return a => printed c ++ printed (f a)
  | Raise e => printed c
  end.
Proof.
  destruct c as [out [a | e]]; simpl.
  - apply printed_after.
  - reflexivity.
Qed.

Lemma outcome_bind_Return {A B} (c : Py A) (f : A -> Py B) (b : B) :
  outcome (bind c f) = Return b ->
  exists a, outcome c = Return a /\ outcome (f a) = Return b.
Proof.
  rewrite outcome_bind. destruct (outcome c) as [a | e]; [eauto | discriminate].
Qed.

Lemma outcome_ret {A} (a : A) : outcome (ret a) = Return a.
Proof. reflexivity. Qed.

Lemma pydiv_zero (x y : Q) : y == 0 -> pydiv x y = raise ZeroDivisionError.
Proof.
  intros H. unfold pydiv. rewrite (proj2 (Qeq_bool_iff y 0) H). reflexivity.
Qed.

Lemma pydiv_nonzero (x y : Q) : ~ y == 0 -> pydiv x y = ret (x / y).
Proof.
  intros H. unfold pydiv. destruct (Qeq_bool y 0) eqn:E; [ | reflexivity].
  apply Qeq_bool_iff in E. contradiction.
Qed.

(** ** The grid rule *)

Section GridRule.

Variable geoDistance2D : Loc -> Loc -> Q.

Local Abbreviation man := (_manGetShapepointsTimeDist geoDistance2D).
Local Abbreviation SamePlaceIsZero := (SamePlaceIsZero geoDistance2D).
Local Abbreviation PositiveApart := (PositiveApart geoDistance2D).
Local Abbreviation len1 := (len1 geoDistance2D).
Local Abbreviation len2 := (len2 geoDistance2D).
Local Abbreviation TimingDefined := (TimingDefined geoDistance2D).

Lemma getitem_0 (loc : Loc) : WellFormed loc -> getitem loc 0 = ret (c0 loc).
Proof.
  destruct loc as [ | x [ | y r]]; unfold WellFormed; simpl; try lia. reflexivity.
Qed.

Lemma getitem_1 (loc : Loc) : WellFormed loc -> getitem loc 1 = ret (c1 loc).
Proof.
  destruct loc as [ | x [ | y r]]; unfold WellFormed; simpl; try lia. reflexivity.
Qed.

(** The function up to its timing step. *)
Lemma man_unfold (startLoc endLoc : Loc) (speedMPS expDurationSec : option Q)
    (vf : bool) :
  WellFormed startLoc -> WellFormed endLoc ->
  man startLoc endLoc speedMPS expDurationSec vf =
  (time <- match expDurationSec with
           | Some D =>
               t1 <- pydiv (D * len1 vf startLoc endLoc)
                       (len1 vf startLoc endLoc + len2 vf startLoc endLoc) ;;
               t2 <- pydiv (D * len2 vf startLoc endLoc)
                       (len1 vf startLoc endLoc + len2 vf startLoc endLoc) ;;
               ret [0; t1; t2]
           | None =>
               t1 <- pydiv_opt (len1 vf startLoc endLoc) speedMPS ;;
               t2 <- pydiv_opt (len2 vf startLoc endLoc) speedMPS ;;
               ret [0; t1; t2]
           end ;;
   ret ([startLoc; cornerOf vf startLoc endLoc; endLoc], time,
        [0; len1 vf startLoc endLoc; len2 vf startLoc endLoc])).
Proof.
  intros Hs He. unfold _manGetShapepointsTimeDist, len1, len2, cornerOf.
  destruct vf;
    rewrite ?(getitem_0 Hs), ?(getitem_1 Hs), ?(getitem_0 He), ?(getitem_1 He);
    reflexivity.
Qed.

Lemma man_zero_length (startLoc endLoc : Loc) (speedMPS : option Q) (D : Q)
    (vf : bool) :
  WellFormed startLoc -> WellFormed endLoc ->
  len1 vf startLoc endLoc + len2 vf startLoc endLoc == 0 ->
  man startLoc endLoc speedMPS (Some D) vf = raise ZeroDivisionError.
Proof.
  intros Hs He Hz. rewrite man_unfold by assumption.
  rewrite (pydiv_zero _ Hz). reflexivity.
Qed.

Lemma man_split (startLoc endLoc : Loc) (speedMPS : option Q) (D : Q) (vf : bool) :
  WellFormed startLoc -> WellFormed endLoc ->
  ~ len1 vf startLoc endLoc + len2 vf startLoc endLoc == 0 ->
  man startLoc endLoc speedMPS (Some D) vf =
  ret ([startLoc; cornerOf vf startLoc endLoc; endLoc],
       [0;
        D * len1 vf startLoc endLoc / (len1 vf startLoc endLoc + len2 vf startLoc endLoc);
        D * len2 vf startLoc endLoc / (len1 vf startLoc endLoc + len2 vf startLoc endLoc)],
       [0; len1 vf startLoc endLoc; len2 vf startLoc endLoc]).
Proof.
  intros Hs He Hz. rewrite man_unfold by assumption.
  rewrite !(pydiv_nonzero _ Hz). reflexivity.
Qed.

Lemma man_by_speed (startLoc endLoc : Loc) (speed : Q) (vf : bool) :
  WellFormed startLoc -> WellFormed endLoc -> ~ speed == 0 ->
  man startLoc endLoc (Some speed) None vf =
  ret ([startLoc; cornerOf vf startLoc endLoc; endLoc],
       [0; len1 vf startLoc endLoc / speed; len2 vf startLoc endLoc / speed],
       [0; len1 vf startLoc endLoc; len2 vf startLoc endLoc]).
Proof.
  intros Hs He Hz. rewrite man_unfold by assumption.
  unfold pydiv_opt. rewrite !(pydiv_nonzero _ Hz). reflexivity.
Qed.

Lemma split_sums (D l1 l2 : Q) :
  ~ l1 + l2 == 0 -> D * l1 / (l1 + l2) + D * l2 / (l1 + l2) == D.
Proof. intros H. field. exact H. Qed.

Lemma same_place_lengths (startLoc endLoc : Loc) (vf : bool) :
  SamePlaceIsZero ->
  c0 startLoc == c0 endLoc -> c1 startLoc == c1 endLoc ->
  len1 vf startLoc endLoc + len2 vf startLoc endLoc == 0.
Proof.
  intros Hgd H0 H1. unfold len1, len2, cornerOf.
  destruct vf.
  - rewrite (Hgd startLoc [c0 endLoc; c1 startLoc]),
            (Hgd [c0 endLoc; c1 startLoc] endLoc);
      unfold c0, c1 in *; simpl; try reflexivity; try assumption.
  - rewrite (Hgd startLoc [c0 startLoc; c1 endLoc]),
            (Hgd [c0 startLoc; c1 endLoc] endLoc);
      unfold c0, c1 in *; simpl; try reflexivity; try assumption.
Qed.

Lemma apart_lengths (startLoc endLoc : Loc) (vf : bool) :
  PositiveApart ->
  ~ (c0 startLoc == c0 endLoc /\ c1 startLoc == c1 endLoc) ->
  ~ len1 vf startLoc endLoc + len2 vf startLoc endLoc == 0.
Proof.
  intros Hgd Hne Hz. apply Hne. unfold len1, len2 in Hz.
  destruct (Hgd startLoc (cornerOf vf startLoc endLoc)) as [Hp1 Hz1].
  destruct (Hgd (cornerOf vf startLoc endLoc) endLoc) as [Hp2 Hz2].
  assert (E1 : geoDistance2D startLoc (cornerOf vf startLoc endLoc) == 0) by lra.
  assert (E2 : geoDistance2D (cornerOf vf startLoc endLoc) endLoc == 0) by lra.
  destruct (Hz1 E1) as [A0 A1]. destruct (Hz2 E2) as [B0 B1].
  destruct vf; unfold cornerOf, c0, c1 in *; simpl in *; split; auto.
Qed.

(** C6 (as amended).  The grid path is [start, corner, end].  With
    [verticalFirst] true, which is how getShapepoints2D calls the rule, the
    corner has the END's latitude and the START's longitude; with
    [verticalFirst] false it has the start's latitude and the end's
    longitude. *)
Theorem manhattan_path_corner (startLoc endLoc : Loc)
    (speedMPS expDurationSec : option Q) (vf : bool) :
  WellFormed startLoc -> WellFormed endLoc ->
  TimingDefined vf startLoc endLoc speedMPS expDurationSec ->
  exists corner time dist,
    man startLoc endLoc speedMPS expDurationSec vf
    = ret ([startLoc; corner; endLoc], time, dist)
    /\ corner = (if vf then [c0 endLoc; c1 startLoc] else [c0 startLoc; c1 endLoc]).
Proof.
  intros Hs He Ht. exists (cornerOf vf startLoc endLoc).
  destruct expDurationSec as [D | ]; simpl in Ht.
  - do 2 eexists. split; [apply man_split; assumption | reflexivity].
  - destruct Ht as [speed [-> Hz]].
    do 2 eexists. split; [apply man_by_speed; assumption | reflexivity].
Qed.

Lemma man_same_place_raises (startLoc endLoc : Loc)
    (speedMPS : option Q) (D : Q) (vf : bool) :
  SamePlaceIsZero ->
  WellFormed startLoc -> WellFormed endLoc ->
  c0 startLoc == c0 endLoc -> c1 startLoc == c1 endLoc ->
  man startLoc endLoc speedMPS (Some D) vf = raise ZeroDivisionError.
Proof.
  intros Hgd Hs He H0 H1. apply man_zero_length; try assumption.
  apply same_place_lengths; assumption.
Qed.

(** C5.  A start and an end at one latitude and longitude (they may still
    differ as lists, by altitude or by length) give two segments of length
    zero, and the proportional split of a supplied duration divides by their
    sum: the rule raises ZeroDivisionError and yields no segment times. *)
Theorem manhattan_split_zero_length (startLoc endLoc : Loc)
    (speedMPS : option Q) (D : Q) (vf : bool) :
  SamePlaceIsZero ->
  WellFormed startLoc -> WellFormed endLoc ->
  c0 startLoc == c0 endLoc -> c1 startLoc == c1 endLoc ->
  len1 vf startLoc endLoc + len2 vf startLoc endLoc == 0
  /\ man startLoc endLoc speedMPS (Some D) vf = raise ZeroDivisionError
  /\ forall r, outcome (man startLoc endLoc speedMPS (Some D) vf) <> Return r.
Proof.
  intros Hgd Hs He H0 H1.
  split; [apply same_place_lengths; assumption | ].
  rewrite man_same_place_raises by assumption.
  split; [reflexivity | intros r; discriminate].
Qed.

(** Away from that case the split is the one of line 405 and adds up to the
    supplied duration; without a duration each segment takes its length
    over the speed. *)
Lemma manhattan_split_apart (startLoc endLoc : Loc) (speedMPS : option Q)
    (D : Q) (vf : bool) :
  PositiveApart ->
  WellFormed startLoc -> WellFormed endLoc ->
  ~ (c0 startLoc == c0 endLoc /\ c1 startLoc == c1 endLoc) ->
  exists t1 t2,
    man startLoc endLoc speedMPS (Some D) vf
    = ret ([startLoc; cornerOf vf startLoc endLoc; endLoc], [0; t1; t2],
           [0; len1 vf startLoc endLoc; len2 vf startLoc endLoc])
    /\ t1 = D * len1 vf startLoc endLoc / (len1 vf startLoc endLoc + len2 vf startLoc endLoc)
    /\ t2 = D * len2 vf startLoc endLoc / (len1 vf startLoc endLoc + len2 vf startLoc endLoc)
    /\ t1 + t2 == D.
Proof.
  intros Hgd Hs He Hne.
  pose proof (@apart_lengths startLoc endLoc vf Hgd Hne) as Hz.
  do 2 eexists. split; [apply man_split; assumption | ].
  split; [reflexivity | split; [reflexivity | ]].
  apply split_sums. exact Hz.
Qed.

End GridRule.

(** ** Loops *)

Lemma getitem_Return {A} (l : list A) (i : nat) (a d : A) :
  outcome (getitem l i) = Return a -> nth i l d = a.
Proof.
  unfold getitem. destruct (nth_error l i) eqn:E; simpl; intros H; [ | discriminate].
  injection H as <-. apply nth_error_nth. exact E.
Qed.

Ltac step H x Hx :=
  apply outcome_bind_Return in H; destruct H as [x [Hx H]].

(** A loop whose body only appends leaves what was there in front. *)
Lemma for_range_extends {A} (body : nat -> list A -> Py (list A)) :
  (forall i acc acc', outcome (body i acc) = Return acc' ->
                      exists x, acc' = acc ++ [x]) ->
  forall count start acc acc',
    outcome (for_range start count body acc) = Return acc' ->
    exists ext, acc' = acc ++ ext.
Proof.
  intros Hbody. induction count as [ | k IH]; intros start acc acc' H; simpl in H.
  - injection H as <-. exists []. symmetry. apply app_nil_r.
  - step H mid Hmid.
    destruct (Hbody _ _ _ Hmid) as [x ->].
    destruct (IH _ _ _ H) as [ext ->].
    exists (x :: ext). rewrite <- app_assoc. reflexivity.
Qed.

Lemma accumulate_head (first : Q) (xs : list Q) (n : nat) (acc : list Q) :
  outcome (accumulate first xs n) = Return acc -> nth 0 acc 0 = first.
Proof.
  intros H. unfold accumulate in H.
  apply for_range_extends in H.
  - destruct H as [ext ->]. reflexivity.
  - intros i a a' Hb. step Hb u Hu. step Hb w Hw.
    injection Hb as <-. eauto.
Qed.

Lemma getitem_Some {A} (l : list A) (i : nat) (a : A) :
  nth_error l i = Some a -> getitem l i = ret a.
Proof. intros H. unfold getitem. rewrite H. reflexivity. Qed.

Lemma skipn_next {A} (n : nat) (l : list A) (x : A) (rest : list A) :
  skipn n l = x :: rest -> skipn (S n) l = rest.
Proof.
  revert l. induction n as [ | n IH]; intros l H.
  - simpl in H. subst l. reflexivity.
  - destruct l as [ | y l]; [discriminate | ]. simpl in H. apply (IH _ H).
Qed.

Lemma for_range_append {A} (body : nat -> list A -> Py (list A))
    (f : nat -> list A) :
  forall count start acc,
    (forall i acc, (start <= i < start + count)%nat ->
                   body i acc = ret (acc ++ f i)) ->
    for_range start count body acc = ret (acc ++ flat_map f (seq start count)).
Proof.
  induction count as [ | k IH]; intros start acc Hbody; simpl.
  - rewrite app_nil_r. reflexivity.
  - rewrite Hbody by lia. rewrite bind_ret.
    rewrite IH by (intros; apply Hbody; lia).
    rewrite <- app_assoc. reflexivity.
Qed.

Lemma getitem_nth {A} (l : list A) (i : nat) (d : A) :
  (i < List.length l)%nat -> getitem l i = ret (nth i l d).
Proof.
  intros H. unfold getitem.
  rewrite (nth_error_nth' l d H). reflexivity.
Qed.

Lemma runningSums_length (l : list Q) (first : Q) :
  List.length (runningSums first l) = S (List.length l).
Proof.
  revert first. induction l as [ | x l IH]; intros first; simpl; [reflexivity | ].
  rewrite IH. reflexivity.
Qed.

Lemma runningSums_last (l : list Q) (first : Q) :
  nth (List.length l) (runningSums first l) 0 == first + Qsum l.
Proof.
  revert first. induction l as [ | x l IH]; intros first; simpl.
  - ring.
  - rewrite IH. ring.
Qed.

Lemma accumulate_loop (xs : list Q) :
  forall count start pre a,
    List.length pre = (start - 1)%nat -> (1 <= start)%nat ->
    (start + count <= List.length xs)%nat ->
    for_range start count
      (fun i acc =>
         a <- getitem acc (i - 1) ;;
         x <- getitem xs i ;;
         ret (acc ++ [a + x]))
      (pre ++ [a])
    = ret (pre ++ runningSums a (firstn count (skipn start xs))).
Proof.
  induction count as [ | k IH]; intros start pre a Hpre Hs Hlen; simpl.
  - reflexivity.
  - unfold getitem at 1.
    rewrite nth_error_app2 by lia. rewrite Hpre, Nat.sub_diag. simpl nth_error.
    cbv iota. rewrite bind_ret.
    destruct (skipn start xs) as [ | x rest] eqn:E.
    { apply (f_equal (@List.length Q)) in E. rewrite length_skipn in E.
      simpl in E. lia. }
    assert (Hx : nth_error xs start = Some x).
    { rewrite <- (firstn_skipn start xs) at 1.
      rewrite nth_error_app2 by (rewrite length_firstn; lia).
      rewrite length_firstn, Nat.min_l by lia.
      rewrite Nat.sub_diag, E. reflexivity. }
    rewrite (getitem_Some _ _ Hx), !bind_ret.
    rewrite (IH (S start) (pre ++ [a]) (a + x)).
    + rewrite <- app_assoc. rewrite (skipn_next _ _ E). reflexivity.
    + rewrite length_app. simpl. lia.
    + lia.
    + lia.
Qed.

Lemma accumulate_total (first : Q) (xs : list Q) (n : nat) :
  (1 <= n <= List.length xs)%nat ->
  accumulate first xs n = ret (runningSums first (firstn (n - 1) (tl xs))).
Proof.
  intros Hn. unfold accumulate.
  rewrite (accumulate_loop xs (n - 1) [] first); simpl; try lia.
  destruct xs; reflexivity.
Qed.

Section RowLoop.

Variables (odID0 : Z) (objectID0 modelFile0 : option string) (style : Display)
  (accTime : list Q) (dicPath : list LocDict).

Local Abbreviation rowAt :=
  (rowAt odID0 objectID0 modelFile0 style accTime dicPath).

Lemma row_loop_Return (count start : nat) (rows0 rows : list Row) :
  outcome (for_range start count
             (fun i assignments =>
                t0 <- getitem accTime (i - 1) ;;
                p0 <- getitem dicPath (i - 1) ;;
                t1 <- getitem accTime i ;;
                p1 <- getitem dicPath i ;;
                ret (assignments ++
                     [Build_Row odID0 objectID0 modelFile0
                        t0 (lat p0) (lon p0) (alt p0)
                        t1 (lat p1) (lon p1) (alt p1) style]))
             rows0) = Return rows ->
  rows = rows0 ++ map rowAt (seq start count).
Proof.
  revert start rows0. induction count as [ | k IH]; intros start rows0 H; simpl in H.
  - injection H as <-. simpl. symmetry. apply app_nil_r.
  - step H mid Hmid.
    step Hmid t0 Ht0. step Hmid p0 Hp0. step Hmid t1 Ht1. step Hmid p1 Hp1.
    injection Hmid as <-.
    apply (getitem_Return _ _ 0) in Ht0, Ht1.
    apply (getitem_Return _ _ nowhere) in Hp0, Hp1.
    rewrite (IH _ _ H). simpl. rewrite <- app_assoc. simpl.
    unfold rowAt. rewrite Ht0, Ht1, Hp0, Hp1. reflexivity.
Qed.

Lemma rows_chained (count start : nat) :
  Chained (map rowAt (seq (S start) count)).
Proof.
  revert start. induction count as [ | k IH]; intros start; simpl; [exact I | ].
  split; [ | apply IH].
  destruct k; simpl; [exact I | ].
  repeat split; reflexivity.
Qed.

Lemma assignmentRows_Return (n : nat) (rows : list Row) :
  outcome (assignmentRows odID0 objectID0 modelFile0 style accTime dicPath n)
  = Return rows ->
  Chained rows /\ StartsAt (nth 0 accTime 0) rows.
Proof.
  intros H. apply row_loop_Return in H. subst rows. simpl. split.
  - apply rows_chained.
  - destruct (n - 1)%nat; simpl; reflexivity.
Qed.

Lemma assignmentRows_last (n : nat) :
  (2 <= n)%nat -> List.length accTime = n -> List.length dicPath = n ->
  exists rows last,
    assignmentRows odID0 objectID0 modelFile0 style accTime dicPath n
    = ret (rows ++ [last])
    /\ endTimeSec last = nth (n - 1) accTime 0.
Proof.
  intros Hn Ht Hp. unfold assignmentRows.
  rewrite (for_range_append _ (fun i => [rowAt i])).
  - replace (n - 1)%nat with (S (n - 2)) by lia. rewrite seq_S, flat_map_app.
    simpl. do 2 eexists. split; reflexivity.
  - intros i acc Hi. cbv beta.
    rewrite (@getitem_nth _ accTime (i - 1) 0), bind_ret by lia.
    rewrite (@getitem_nth _ dicPath (i - 1) nowhere), bind_ret by lia.
    rewrite (@getitem_nth _ accTime i 0), bind_ret by lia.
    rewrite (@getitem_nth _ dicPath i nowhere), bind_ret by lia.
    reflexivity.
Qed.

End RowLoop.

(** ** Redistribution *)

Section RedistributionFacts.

Variable geoDistance2D : Loc -> Loc -> Q.

Local Abbreviation segments := (segmentLengths geoDistance2D).
Local Abbreviation distribute := (distributeTimeDist geoDistance2D).

Lemma segmentLengths_length (path : list Loc) :
  List.length (segments path) = (List.length path - 1)%nat.
Proof.
  unfold segmentLengths. rewrite length_map, length_combine.
  destruct path as [ | p path]; [reflexivity | ].
  cbn [tl List.length]. lia.
Qed.

Lemma allOnFinal_length (D : Q) (n : nat) : List.length (allOnFinal D n) = n.
Proof.
  destruct n; simpl; [reflexivity | ].
  rewrite length_app, repeat_length. simpl. lia.
Qed.

Lemma Qsum_app (l l' : list Q) : Qsum (l ++ l') == Qsum l + Qsum l'.
Proof.
  induction l as [ | x l IH]; simpl; [ring | rewrite IH; ring].
Qed.

Lemma allOnFinal_sum (D : Q) (n : nat) : (1 <= n)%nat -> Qsum (allOnFinal D n) == D.
Proof.
  destruct n as [ | k]; [lia | ]. intros _. simpl. rewrite Qsum_app.
  assert (Hz : Qsum (repeat 0 k) == 0).
  { induction k; simpl; [reflexivity | rewrite IHk; ring]. }
  rewrite Hz. simpl. ring.
Qed.

Lemma proportional_sum (D total : Q) (segs : list Q) :
  ~ total == 0 ->
  Qsum (map (fun d => D * d / total) segs) == D * Qsum segs / total.
Proof.
  intros Hz. induction segs as [ | x l IH]; simpl.
  - field. exact Hz.
  - rewrite IH. field. exact Hz.
Qed.

Lemma distributeTimeDist_lengths (path : list Loc) (D : Q) :
  List.length (fst (distribute path D)) = S (List.length path - 1)
  /\ List.length (snd (distribute path D)) = S (List.length path - 1).
Proof.
  unfold distributeTimeDist. cbn [fst snd List.length].
  split; [ | rewrite segmentLengths_length; reflexivity].
  destruct (Qeq_bool (Qsum (segments path)) 0).
  - rewrite allOnFinal_length, segmentLengths_length. reflexivity.
  - rewrite length_map, segmentLengths_length. reflexivity.
Qed.

(** Part (c) of section 4.3: the redistributed times add up to the target. *)
Lemma distributeTimeDist_sum (path : list Loc) (D : Q) :
  (2 <= List.length path)%nat ->
  Qsum (tl (fst (distribute path D))) == D.
Proof.
  intros Hn. unfold distributeTimeDist. cbn [fst tl].
  destruct (Qeq_bool (Qsum (segments path)) 0) eqn:E.
  - apply allOnFinal_sum. rewrite segmentLengths_length. lia.
  - assert (Hz : ~ Qsum (segments path) == 0).
    { intros H. apply Qeq_bool_iff in H. rewrite H in E. discriminate. }
    rewrite (proportional_sum D _ Hz). field. exact Hz.
Qed.

End RedistributionFacts.

Lemma locs2Dict_total (path : list Loc) :
  Forall WellFormed path ->
  exists dicPath, locs2Dict path = ret dicPath
                  /\ List.length dicPath = List.length path.
Proof.
  induction 1 as [ | p path Hp _ [ds [E Hl]]]; simpl.
  - exists []. auto.
  - unfold loc2Dict. rewrite (getitem_0 Hp), (getitem_1 Hp), !bind_ret, E, bind_ret.
    eexists. split; [reflexivity | ]. simpl. rewrite Hl. reflexivity.
Qed.

Lemma locs2Dict_Return (path : list Loc) (ds : list LocDict) :
  outcome (locs2Dict path) = Return ds -> ds = map toDict path.
Proof.
  revert ds. induction path as [ | p path IH]; intros ds H; simpl in H.
  - injection H as <-. reflexivity.
  - step H d Hd. step H ds' Hds. injection H as <-.
    unfold loc2Dict in Hd. step Hd la Hla. step Hd lo Hlo. injection Hd as <-.
    apply (getitem_Return _ _ 0) in Hla, Hlo.
    rewrite (IH _ Hds). simpl. unfold toDict, c0, c1. rewrite Hla, Hlo. reflexivity.
Qed.

Lemma accumulate_self (first : Q) (xs : list Q) :
  exists acc, accumulate first xs (List.length xs) = ret acc.
Proof.
  destruct xs as [ | x xs].
  - exists [first]. reflexivity.
  - eexists. apply accumulate_total. simpl. lia.
Qed.

(** ** getShapepoints2D: the branches of the assembler *)

Lemma report_warning_outcome (show : bool) (v : Validation) :
  outcome (report_warning show v) = Return tt.
Proof.
  unfold report_warning.
  destruct (show && negb (String.eqb (warningMsg v) "")); reflexivity.
Qed.

Lemma planarDistance_same_place : SamePlaceIsZero planarDistance.
Proof.
  intros a b H0 H1. unfold planarDistance. unfold c0, c1 in *.
  rewrite H0, H1.
  setoid_replace (nth 0 b 0 - nth 0 b 0) with 0 by ring.
  setoid_replace (nth 1 b 0 - nth 1 b 0) with 0 by ring.
  reflexivity.
Qed.




Section ShapepointFacts.

Variable geoDistance2D : Loc -> Loc -> Q.
Variable valGetShapepoints2D :
  Z -> option string -> option string -> Loc -> Loc -> Q -> option Q ->
  string -> option Q -> Display -> option string -> option Dict -> Validation.
Variable VRV_SETTING_SHOWWARNINGMESSAGE : bool.
Variable VRV_DEFAULT_DISTANCE_ERROR_TOLERANCE : Q.
Variable dataProviderDictionary : option string -> option string.
Variable replaceBackslashToSlash : option string -> option string.
Variable pgrGetShapepointsTimeDist : Loc -> Loc -> string -> Py Route.
Variable osrmGetShapepointsTimeDist : Loc -> Loc -> Py Route.
Variable mqGetShapepointsTimeDist : Loc -> Loc -> string -> string -> Py Route.
Variable orsGetShapepointsTimeDist : Loc -> Loc -> string -> string -> Py Route.

Local Abbreviation shapepoints :=
  (getShapepoints2D geoDistance2D valGetShapepoints2D
     VRV_SETTING_SHOWWARNINGMESSAGE VRV_DEFAULT_DISTANCE_ERROR_TOLERANCE
     dataProviderDictionary replaceBackslashToSlash
     pgrGetShapepointsTimeDist osrmGetShapepointsTimeDist
     mqGetShapepointsTimeDist orsGetShapepointsTimeDist).

Local Abbreviation cases :=
  (routeCases geoDistance2D dataProviderDictionary
     pgrGetShapepointsTimeDist osrmGetShapepointsTimeDist
     mqGetShapepointsTimeDist orsGetShapepointsTimeDist).

Local Abbreviation validation :=
  valGetShapepoints2D.

Section OneCall.

Variables (odID : Z) (objectID modelFile : option string)
  (startLoc endLoc : Loc) (startTime : Q) (expDurationSec : option Q)
  (routeType : string) (speedMPS : option Q) (style : Display)
  (dataProvider : option string) (dataProviderArgs : option Dict).

Local Abbreviation v :=
  (validation odID objectID modelFile startLoc endLoc startTime expDurationSec
     routeType speedMPS style dataProvider dataProviderArgs).

Local Abbreviation call :=
  (shapepoints odID objectID modelFile startLoc endLoc startTime expDurationSec
     routeType speedMPS style dataProvider dataProviderArgs).

Local Abbreviation route :=
  (cases startLoc endLoc speedMPS expDurationSec (lower routeType)
     (option_map lower dataProvider) dataProviderArgs).


(** An accepted call with [startLoc != endLoc] whose route cases raise or
    fall through to the bare [return]. *)
Lemma call_when_route_raises (e : exn) :
  valFlag v = true -> loc_eqb startLoc endLoc = false ->
  outcome route = Raise e -> outcome call = Raise e.
Proof.
  intros Hv Hne Hr. unfold getShapepoints2D. rewrite Hv, Hne. simpl negb. cbv iota.
  rewrite outcome_bind, report_warning_outcome, outcome_bind, Hr. reflexivity.
Qed.


Lemma route_manhattan_same_place (D : Q) :
  SamePlaceIsZero geoDistance2D ->
  WellFormed startLoc -> WellFormed endLoc ->
  c0 startLoc == c0 endLoc -> c1 startLoc == c1 endLoc ->
  lower routeType = "manhattan" -> expDurationSec = Some D ->
  route = raise ZeroDivisionError.
Proof.
  intros Hgd Hs He H0 H1 Hrt HD. unfold routeCases. rewrite Hrt, HD.
  change (String.eqb "manhattan" "euclidean2d") with false.
  change (String.eqb "manhattan" "manhattan") with true. cbv iota.
  rewrite (@man_same_place_raises geoDistance2D startLoc endLoc speedMPS D true);
    auto.
Qed.

(** Whenever the route cases do hand over a path of two or more points,
    a supplied duration is honoured: the last row ends at
    [startTimeSec + expDurationSec]. *)
Lemma override_reached (path : list Loc) (time dist : list Q) (D : Q) :
  valFlag v = true -> loc_eqb startLoc endLoc = false ->
  WellFormed startLoc -> WellFormed endLoc ->
  expDurationSec = Some D ->
  outcome route = Return (Some (path, time, dist)) ->
  (2 <= List.length path)%nat -> Forall WellFormed path ->
  exists rows last,
    outcome call = Return (Some (rows ++ [last]))
    /\ endTimeSec last == startTime + D.
Proof.
  intros Hv Hne Hs He HD Hr Hn Hwf.
  unfold getShapepoints2D. rewrite Hv, Hne. simpl negb. cbv iota.
  rewrite outcome_bind, report_warning_outcome, outcome_bind, Hr.
  destruct path as [ | p1 path']; [simpl in Hn; lia | ].
  set (path := p1 :: path') in *.
  change (getitem path 0) with (ret p1). rewrite bind_ret.
  rewrite outcome_bind.
  assert (Hadv : forall (loc : Loc) (d : Q) (m : Q -> Q -> Q -> Message),
             WellFormed loc ->
             outcome (if Qle_bool VRV_DEFAULT_DISTANCE_ERROR_TOLERANCE d
                      then la <- getitem loc 0 ;; lo <- getitem loc 1 ;;
                           print (m la lo d)
                      else ret tt) = Return tt).
  { intros loc d m Hl.
    destruct (Qle_bool VRV_DEFAULT_DISTANCE_ERROR_TOLERANCE d); [ | reflexivity].
    rewrite (getitem_0 Hl), (getitem_1 Hl), !bind_ret. reflexivity. }
  rewrite (Hadv startLoc _ OriginAway Hs).
  unfold getlast.
  rewrite (@getitem_nth _ path (List.length path - 1) []) by (simpl; lia).
  rewrite bind_ret, outcome_bind, (Hadv endLoc _ DestinationAway He).
  destruct (accumulate_self 0 dist) as [accDist ->]. rewrite bind_ret.
  rewrite HD, bind_ret.
  destruct (distributeTimeDist geoDistance2D path D) as [time' dist'] eqn:Etd.
  pose proof (distributeTimeDist_lengths geoDistance2D path D) as [Hlt Hld].
  pose proof (@distributeTimeDist_sum geoDistance2D path D Hn) as Hsum.
  rewrite Etd in Hlt, Hld, Hsum. simpl fst in *. simpl snd in *.
  rewrite accumulate_total by lia. rewrite bind_ret.
  destruct (locs2Dict_total Hwf) as [dicPath [-> Hdl]]. rewrite bind_ret.
  set (accTime := runningSums startTime (firstn (List.length dist' - 1) (tl time'))).
  assert (Hfull : firstn (List.length dist' - 1) (tl time') = tl time').
  { apply firstn_all2. destruct time'; simpl in *; lia. }
  assert (Hal : List.length accTime = List.length path).
  { unfold accTime. rewrite Hfull, runningSums_length.
    destruct time'; simpl in *; lia. }
  destruct (@assignmentRows_last odID objectID (replaceBackslashToSlash modelFile)
              style accTime dicPath (List.length path) Hn Hal Hdl)
    as [rows [last [-> Hlast]]].
  rewrite bind_ret. exists rows, last. split; [reflexivity | ].
  rewrite Hlast. unfold accTime. rewrite Hfull.
  replace (List.length path - 1)%nat with (List.length (tl time'))
    by (destruct time'; simpl in *; lia).
  rewrite runningSums_last, Hsum. reflexivity.
Qed.

(** The direct rule always hands over its two-point path when a duration
    is supplied, so there the duration is honoured for every
    [startLoc != endLoc]. *)
Lemma override_reached_euclidean (D : Q) :
  valFlag v = true -> loc_eqb startLoc endLoc = false ->
  WellFormed startLoc -> WellFormed endLoc ->
  expDurationSec = Some D -> lower routeType = "euclidean2d" ->
  exists rows last,
    outcome call = Return (Some (rows ++ [last]))
    /\ endTimeSec last == startTime + D.
Proof.
  intros Hv Hne Hs He HD Hrt.
  apply (@override_reached [startLoc; endLoc] [0; D]
           [0; geoDistance2D startLoc endLoc] D); try assumption.
  - unfold routeCases. rewrite Hrt, HD. reflexivity.
  - simpl. lia.
  - repeat constructor; assumption.
Qed.

(** So does the grid rule when start and end are apart in latitude or
    longitude. *)
Lemma override_reached_manhattan (D : Q) :
  PositiveApart geoDistance2D ->
  valFlag v = true -> loc_eqb startLoc endLoc = false ->
  WellFormed startLoc -> WellFormed endLoc ->
  ~ (c0 startLoc == c0 endLoc /\ c1 startLoc == c1 endLoc) ->
  expDurationSec = Some D -> lower routeType = "manhattan" ->
  exists rows last,
    outcome call = Return (Some (rows ++ [last]))
    /\ endTimeSec last == startTime + D.
Proof.
  intros Hgd Hv Hne Hs He Hap HD Hrt.
  destruct (@manhattan_split_apart geoDistance2D startLoc endLoc speedMPS D true
              Hgd Hs He Hap) as [t1 [t2 [Hman _]]].
  apply (@override_reached
           [startLoc; cornerOf true startLoc endLoc; endLoc] [0; t1; t2]
           [0; len1 geoDistance2D true startLoc endLoc;
            len2 geoDistance2D true startLoc endLoc] D); try assumption.
  - unfold routeCases. rewrite Hrt, HD.
    change (String.eqb "manhattan" "euclidean2d") with false.
    change (String.eqb "manhattan" "manhattan") with true. cbv iota.
    rewrite Hman. reflexivity.
  - simpl. lia.
  - repeat constructor; assumption.
Qed.

(** C4.  An accepted call in grid mode whose start and end are different
    lists at one latitude and longitude, with a duration supplied, performs
    the division of line 405 by zero: it raises ZeroDivisionError. *)
Theorem getShapepoints2D_divides_by_zero (D : Q) :
  SamePlaceIsZero geoDistance2D ->
  valFlag v = true ->
  WellFormed startLoc -> WellFormed endLoc ->
  loc_eqb startLoc endLoc = false ->
  c0 startLoc == c0 endLoc -> c1 startLoc == c1 endLoc ->
  lower routeType = "manhattan" -> expDurationSec = Some D ->
  outcome call = Raise ZeroDivisionError.
Proof.
  intros Hgd Hv Hs He Hne H0 H1 Hrt HD.
  apply call_when_route_raises; try assumption.
  rewrite (route_manhattan_same_place Hgd Hs He H0 H1 Hrt HD). reflexivity.
Qed.

(** C1.  A supplied duration is to bring the last row to
    [startTimeSec + expDurationSec].  An accepted call in grid mode whose
    start and end are different lists at one latitude and longitude never
    gets that far: no dataframe comes back, so there is no last row ending
    at that time.  ([override_reached] above gives the positive statement
    for every call whose route cases hand over a path.) *)
Theorem getShapepoints2D_override_not_reached (D : Q) :
  SamePlaceIsZero geoDistance2D ->
  valFlag v = true ->
  WellFormed startLoc -> WellFormed endLoc ->
  loc_eqb startLoc endLoc = false ->
  c0 startLoc == c0 endLoc -> c1 startLoc == c1 endLoc ->
  lower routeType = "manhattan" -> expDurationSec = Some D ->
  ~ exists rows last,
      outcome call = Return (Some (rows ++ [last]))
      /\ endTimeSec last == startTime + D.
Proof.
  intros Hgd Hv Hs He Hne H0 H1 Hrt HD [rows [last [Hret _]]].
  rewrite (call_when_route_raises (e := ZeroDivisionError)) in Hret;
    try assumption; try discriminate.
  rewrite (route_manhattan_same_place Hgd Hs He H0 H1 Hrt HD). reflexivity.
Qed.

(** When [startLoc == endLoc] holds of the two lists, an accepted call
    returns exactly one row: it starts at the supplied time, stays at the
    start location, and ends [expDurationSec] later, or at once when no
    duration is supplied. *)
Lemma getShapepoints2D_same_location :
  valFlag v = true ->
  WellFormed startLoc ->
  loc_eqb startLoc endLoc = true ->
  exists row,
    outcome call = Return (Some [row])
    /\ startTimeSec row = startTime
    /\ startLat row = c0 startLoc /\ startLon row = c1 startLoc
    /\ endLat row = startLat row /\ endLon row = startLon row
    /\ endAltMeters row = startAltMeters row
    /\ endTimeSec row ==
       startTime + match expDurationSec with Some D => D | None => 0 end.
Proof.
  intros Hv Hs Heq. unfold getShapepoints2D. rewrite Hv, Heq. simpl negb. cbv iota.
  rewrite outcome_bind, report_warning_outcome.
  unfold loc2Dict. rewrite (getitem_0 Hs), (getitem_1 Hs), !bind_ret.
  eexists. split; [reflexivity | ]. simpl.
  repeat (split; [reflexivity | ]).
  destruct expDurationSec; ring.
Qed.



(** C8.  Every dataframe the function returns is contiguous: its first row
    starts at the supplied [startTimeSec], and each row ends at the time and
    at the latitude and longitude at which the next one starts. *)
Theorem getShapepoints2D_rows_contiguous (rows : list Row) :
  outcome call = Return (Some rows) ->
  StartsAt startTime rows /\ Chained rows.
Proof.
  unfold getShapepoints2D. intros H.
  destruct (valFlag v); simpl negb in H; cbv iota in H.
  2: { rewrite outcome_bind in H. simpl in H. discriminate. }
  step H u Hu. clear Hu u.
  destruct (loc_eqb startLoc endLoc); simpl negb in H; cbv iota in H.
  - step H dic Hdic. injection H as <-. simpl. auto.
  - step H r Hr. destruct r as [[[path time] dist] | ]; [ | discriminate].
    step H pfirst Hfirst. step H u1 Hu1. step H plast Hfinal. step H u2 Hu2.
    step H accDist HaccDist. step H td Htd. destruct td as [time' dist'].
    step H accTime HaccTime. step H dicPath HdicPath. step H rs Hrs.
    injection H as <-.
    apply assignmentRows_Return in Hrs. destruct Hrs as [Hc Hs].
    rewrite (accumulate_head _ _ _ HaccTime) in Hs. auto.
Qed.

(** Whatever a returned dataframe holds came from the loop of lines 329-353
    over the path the route cases handed over. *)
Lemma call_rows (path : list Loc) (time dist : list Q) (rows : list Row) :
  loc_eqb startLoc endLoc = false ->
  outcome route = Return (Some (path, time, dist)) ->
  outcome call = Return (Some rows) ->
  exists accTime,
    rows = map (rowAt odID objectID (replaceBackslashToSlash modelFile) style
                  accTime (map toDict path))
               (seq 1 (List.length path - 1)).
Proof.
  intros Hne Hr H. unfold getShapepoints2D in H.
  destruct (valFlag v); simpl negb in H; cbv iota in H.
  2: { rewrite outcome_bind in H. simpl in H. discriminate. }
  step H u Hu. clear Hu u. rewrite Hne in H. simpl negb in H. cbv iota in H.
  step H r Hr'. rewrite Hr in Hr'. injection Hr' as <-.
  step H pfirst Hfirst. step H u1 Hu1. step H plast Hfinal. step H u2 Hu2.
  step H accDist HaccDist. step H td Htd. destruct td as [time' dist'].
  step H accTime HaccTime. step H dicPath HdicPath. step H rs Hrs.
  injection H as <-.
  apply locs2Dict_Return in HdicPath. subst dicPath.
  unfold assignmentRows in Hrs. apply row_loop_Return in Hrs.
  exists accTime. exact Hrs.
Qed.

(** The grid rule hands over a path of three points whenever it returns. *)
Lemma man_path_three (verticalFirst : bool) (path : list Loc) (time dist : list Q) :
  outcome (_manGetShapepointsTimeDist geoDistance2D startLoc endLoc speedMPS
             expDurationSec verticalFirst) = Return (path, time, dist) ->
  List.length path = 3%nat.
Proof.
  unfold _manGetShapepointsTimeDist. intros H.
  step H pd Hpd. destruct pd as [path0 dist0].
  step H d1 Hd1. step H d2 Hd2. step H tm Htm. injection H as <- _ _.
  destruct verticalFirst; step Hpd x0 Hx0; step Hpd x1 Hx1;
    injection Hpd as <- _; reflexivity.
Qed.

(** C2.  The claim has one stationary row for every start and end that
    match in their coordinates.  The single-row branch is guarded by the
    comparison of the two lists (line 270), so two lists that denote one
    place, as [1, 2] and [1, 2, 0] do, are sent to the route cases: in grid
    mode such a call never returns exactly one row. *)
Theorem getShapepoints2D_same_place_not_one_row :
  toDict startLoc = toDict endLoc ->
  loc_eqb startLoc endLoc = false ->
  lower routeType = "manhattan" ->
  forall row, outcome call <> Return (Some [row]).
Proof.
  intros _ Hne Hrt row H. pose proof H as Hcall.
  unfold getShapepoints2D in H.
  destruct (valFlag v); simpl negb in H; cbv iota in H.
  2: { rewrite outcome_bind in H. simpl in H. discriminate. }
  step H u Hu. clear Hu u. rewrite Hne in H. simpl negb in H. cbv iota in H.
  step H r Hr. destruct r as [[[path time] dist] | ]; [ | discriminate].
  destruct (call_rows Hne Hr Hcall) as [accTime Hrows].
  unfold routeCases in Hr. rewrite Hrt in Hr.
  change (String.eqb "manhattan" "euclidean2d") with false in Hr.
  change (String.eqb "manhattan" "manhattan") with true in Hr. cbv iota in Hr.
  step Hr m Hm. injection Hr as ->.
  apply man_path_three in Hm. rewrite Hm in Hrows. discriminate Hrows.
Qed.

(** X1.  One row per consecutive pair of path points: the dataframe has
    [len(path) - 1] rows and row [k] runs from [path[k]] to [path[k+1]]
    (a missing altitude reads 0). *)
Theorem getShapepoints2D_rows_follow_path (path : list Loc) (time dist : list Q)
    (rows : list Row) :
  loc_eqb startLoc endLoc = false ->
  outcome route = Return (Some (path, time, dist)) ->
  outcome call = Return (Some rows) ->
  List.length rows = (List.length path - 1)%nat
  /\ forall k r, nth_error rows k = Some r ->
                 Spans (nth k path []) (nth (S k) path []) r.
Proof.
  intros Hne Hr H. destruct (call_rows Hne Hr H) as [accTime ->].
  split; [rewrite length_map, length_seq; reflexivity | ].
  intros k r Hk.
  assert (Hlt : (k < List.length path - 1)%nat).
  { assert (Hs : nth_error
                   (map (rowAt odID objectID (replaceBackslashToSlash modelFile)
                           style accTime (map toDict path))
                        (seq 1 (List.length path - 1))) k <> None)
      by (rewrite Hk; discriminate).
    apply nth_error_Some in Hs. rewrite length_map, length_seq in Hs. exact Hs. }
  rewrite nth_error_map in Hk.
  rewrite (nth_error_nth' _ 0%nat) in Hk by (rewrite length_seq; exact Hlt).
  rewrite seq_nth in Hk by exact Hlt. simpl in Hk. injection Hk as <-.
  unfold Spans, rowAt. simpl. rewrite Nat.sub_0_r.
  change nowhere with (toDict []). rewrite !map_nth.
  repeat split; reflexivity.
Qed.

(** X2.  Every row of every returned dataframe carries the caller's odID,
    objectID and display arguments unchanged, and the model file as
    replaceBackslashToSlash left it. *)
Theorem getShapepoints2D_rows_carry_arguments (rows : list Row) (r : Row) :
  outcome call = Return (Some rows) -> In r rows ->
  Carries odID objectID (replaceBackslashToSlash modelFile) style r.
Proof.
  unfold getShapepoints2D. intros H Hin.
  destruct (valFlag v); simpl negb in H; cbv iota in H.
  2: { rewrite outcome_bind in H. simpl in H. discriminate. }
  step H u Hu. clear Hu u.
  destruct (loc_eqb startLoc endLoc); simpl negb in H; cbv iota in H.
  - step H dic Hdic. injection H as <-. destruct Hin as [<- | []].
    repeat split.
  - step H rt Hrt. destruct rt as [[[path time] dist] | ]; [ | discriminate].
    step H pfirst Hfirst. step H u1 Hu1. step H plast Hfinal. step H u2 Hu2.
    step H accDist HaccDist. step H td Htd. destruct td as [time' dist'].
    step H accTime HaccTime. step H dicPath HdicPath. step H rs Hrs.
    injection H as <-.
    unfold assignmentRows in Hrs. apply row_loop_Return in Hrs. subst rs.
    simpl in Hin. apply in_map_iff in Hin. destruct Hin as [i [<- _]].
    repeat split.
Qed.


End OneCall.

End ShapepointFacts.

(** ** getConvexHull *)

Lemma flat_map_seq_nth {A B} (h : A -> list B) (d : A) (l : list A) :
  flat_map (fun j => h (nth j l d)) (seq 0 (List.length l)) = flat_map h l.
Proof.
  induction l as [ | x l IH]; simpl; [reflexivity | ].
  rewrite <- seq_shift, flat_map_concat_map, map_map, <- flat_map_concat_map.
  simpl. rewrite IH. reflexivity.
Qed.

Lemma flat_map_filter {A} (P : A -> bool) (l : list A) :
  flat_map (fun x => if P x then [x] else []) l = filter P l.
Proof.
  induction l as [ | x l IH]; simpl; [reflexivity | ].
  rewrite IH. destruct (P x); reflexivity.
Qed.

Lemma strip2D_wellformed (locs : list Loc) :
  Forall WellFormed locs -> strip2D locs = ret (map flat locs).
Proof.
  intros Hwf. unfold strip2D.
  rewrite (for_range_append _ (fun i => [flat (nth i locs [])])).
  - simpl. rewrite (flat_map_seq_nth (fun p => [flat p])).
    rewrite flat_map_concat_map. clear Hwf.
    induction locs as [ | x l IH]; simpl; [reflexivity | ].
    injection IH as IH. rewrite IH. reflexivity.
  - intros i acc Hi. simpl in Hi. cbv beta.
    rewrite (@getitem_nth _ locs i [] (proj2 Hi)), bind_ret.
    assert (Hw : WellFormed (nth i locs [])).
    { rewrite Forall_forall in Hwf. apply Hwf. apply nth_In. lia. }
    rewrite (getitem_0 Hw), (getitem_1 Hw), !bind_ret. reflexivity.
Qed.

Lemma pyand_ret (a b : bool) : pyand a (ret b) = ret (a && b).
Proof. destruct a; reflexivity. Qed.

Lemma rematches_wellformed (c l : Loc) :
  WellFormed c -> WellFormed l -> rematches c l = ret (near c l).
Proof.
  intros Hc Hl. unfold rematches.
  rewrite (getitem_0 Hc), (getitem_0 Hl), (getitem_1 Hc), (getitem_1 Hl), !bind_ret.
  apply pyand_ret.
Qed.

Lemma near_flat (c l : Loc) : near c (flat l) = near c l.
Proof. reflexivity. Qed.

Lemma pick_in_range (locs : list Loc) (vertices : list nat) :
  Forall (fun i => (i < List.length locs)%nat) vertices ->
  pick locs vertices = ret (map (fun i => nth i locs []) vertices).
Proof.
  induction 1 as [ | i vs Hi _ IH]; simpl; [reflexivity | ].
  rewrite (@getitem_nth _ locs i [] Hi), bind_ret, IH. reflexivity.
Qed.

Section ConvexHullFacts.

Variable valGetConvexHull : list Loc -> Validation.
Variable VRV_SETTING_SHOWWARNINGMESSAGE : bool.
Variable ConvexHull_vertices : list Loc -> Py (list nat).

Local Abbreviation hull :=
  (getConvexHull valGetConvexHull VRV_SETTING_SHOWWARNINGMESSAGE ConvexHull_vertices).

(** The list the two nested loops of lines 1287-1291 build. *)
Lemma getConvexHull_rematch (locs : list Loc) (vertices : list nat) :
  valFlag (valGetConvexHull locs) = true ->
  Forall WellFormed locs ->
  ConvexHull_vertices (map flat locs) = ret vertices ->
  Forall (fun i => (i < List.length locs)%nat) vertices ->
  outcome (hull locs)
  = Return (Some (flat_map (fun i => filter (near (nth i locs [])) locs) vertices)).
Proof.
  intros Hv Hwf Hh Hin. unfold getConvexHull. rewrite Hv. simpl negb. cbv iota.
  rewrite outcome_bind, report_warning_outcome.
  rewrite (strip2D_wellformed Hwf), bind_ret, Hh, bind_ret.
  rewrite (pick_in_range locs Hin), bind_ret.
  set (ch2D := map (fun i => nth i locs []) vertices).
  rewrite (for_range_append _
             (fun i => filter (near (nth i ch2D [])) locs)).
  - rewrite bind_ret. simpl. f_equal. f_equal.
    rewrite (flat_map_seq_nth (fun c => filter (near c) locs)).
    unfold ch2D. rewrite !flat_map_concat_map, map_map. reflexivity.
  - intros i ch Hi. simpl in Hi. cbv beta.
    assert (Hc : WellFormed (nth i ch2D [])).
    { assert (Hall : Forall WellFormed ch2D).
      { unfold ch2D. rewrite Forall_forall in *. intros x Hx.
        apply in_map_iff in Hx. destruct Hx as [j [<- Hj]].
        apply Hwf. apply nth_In. apply Hin. exact Hj. }
      rewrite Forall_forall in Hall. apply Hall. apply nth_In. lia. }
    rewrite (for_range_append _
               (fun j => if near (nth i ch2D []) (nth j locs [])
                         then [nth j locs []] else [])).
    + f_equal. f_equal. rewrite length_map.
      rewrite (flat_map_seq_nth
                 (fun l => if near (nth i ch2D []) l then [l] else [])).
      apply flat_map_filter.
    + intros j acc Hj. simpl in Hj. rewrite length_map in Hj. cbv beta.
      rewrite (@getitem_nth _ ch2D i [] (proj2 Hi)), bind_ret.
      rewrite (@getitem_nth _ (map flat locs) j []), bind_ret
        by (rewrite length_map; lia).
      assert (Hl : WellFormed (nth j locs [])).
      { rewrite Forall_forall in Hwf. apply Hwf. apply nth_In. lia. }
      rewrite (nth_indep (map flat locs) [] (flat []))
        by (rewrite length_map; lia).
      rewrite map_nth.
      rewrite rematches_wellformed; [ | exact Hc | unfold WellFormed, flat; simpl; lia].
      rewrite bind_ret, near_flat.
      destruct (near (nth i ch2D []) (nth j locs [])).
      * rewrite (@getitem_nth _ locs j [] (proj2 Hj)), bind_ret. reflexivity.
      * rewrite app_nil_r. reflexivity.
Qed.

(** C10.  The returned list is built by re-matching: for each hull vertex,
    in hull order, every input location within 0.0001 degrees of it in
    latitude and in longitude is appended.  For the four locations of
    [crowded], whose hull is the triangle of the first three, the returned
    list has four entries and holds [inner], which is no hull vertex. *)
Theorem getConvexHull_rematches_by_tolerance :
  (forall locs vertices,
      valFlag (valGetConvexHull locs) = true ->
      Forall WellFormed locs ->
      ConvexHull_vertices (map flat locs) = ret vertices ->
      Forall (fun i => (i < List.length locs)%nat) vertices ->
      outcome (hull locs)
      = Return (Some (flat_map (fun i => filter (near (nth i locs [])) locs)
                        vertices)))
  /\ (forall vertices,
        valFlag (valGetConvexHull crowded) = true ->
        ConvexHull_vertices (map flat crowded) = ret vertices ->
        Permutation vertices [0%nat; 1%nat; 2%nat] ->
        exists ch,
          outcome (hull crowded) = Return (Some ch)
          /\ List.length vertices = 3%nat /\ List.length ch = 4%nat
          /\ In inner ch /\ ~ In 3%nat vertices).
Proof.
  split; [intros; apply getConvexHull_rematch; assumption | ].
  intros vertices Hv Hh Hp.
  set (f := fun i => filter (near (nth i crowded [])) crowded).
  exists (flat_map f vertices).
  assert (Hf : Permutation (flat_map f vertices) [cornerA; inner; cornerB; cornerC]).
  { change [cornerA; inner; cornerB; cornerC] with (flat_map f [0%nat; 1%nat; 2%nat]).
    apply Permutation_flat_map. exact Hp. }
  split; [ | split; [ | split; [ | split]]].
  - apply getConvexHull_rematch; try assumption.
    + repeat constructor; unfold WellFormed; simpl; lia.
    + rewrite Forall_forall. intros i Hi.
      apply (Permutation_in _ Hp) in Hi. simpl in Hi. simpl.
      repeat (destruct Hi as [<- | Hi]; [lia | ]). contradiction.
  - apply (Permutation_length Hp).
  - apply (Permutation_length Hf).
  - apply (Permutation_in _ (Permutation_sym Hf)). simpl. auto.
  - intros Hi. apply (Permutation_in _ Hp) in Hi. simpl in Hi.
    repeat (destruct Hi as [Hi | Hi]; [discriminate | ]). contradiction.
Qed.

End ConvexHullFacts.

(** [inner] is a weighted mean of the three corners with positive weights:
    it lies strictly inside their triangle. *)
Lemma inner_inside_triangle :
  exists a b c,
    0 < a /\ 0 < b /\ 0 < c /\ a + b + c == 1
    /\ c0 inner == a * c0 cornerA + b * c0 cornerB + c * c0 cornerC
    /\ c1 inner == a * c1 cornerA + b * c1 cornerB + c * c1 cornerC.
Proof.
  exists (9999 # 10000), (5 # 100000), (5 # 100000).
  repeat split; reflexivity.
Qed.

(** ** isPointInPoly *)

Lemma closedEdges_map (poly : list Loc) :
  closedEdges (map flat poly)
  = map (fun e => (flat (fst e), flat (snd e))) (closedEdges poly).
Proof.
  destruct poly as [ | p rest]; [reflexivity | ].
  unfold closedEdges. cbn [map].
  replace (map flat rest ++ [flat p]) with (map flat (rest ++ [p]))
    by (rewrite map_app; reflexivity).
  change (flat p :: map flat rest) with (map flat (p :: rest)).
  generalize (p :: rest) (rest ++ [p]). intros l l'. revert l'.
  induction l as [ | x l IH]; intros [ | y l']; simpl; try reflexivity.
  rewrite IH. reflexivity.
Qed.

Lemma combine_has_first {A B} (l : list A) (l' : list B) (a : A) :
  List.length l = List.length l' -> In a l -> exists b, In (a, b) (combine l l').
Proof.
  revert l'. induction l as [ | x l IH]; intros [ | y l'] Hlen Hin;
    simpl in *; try contradiction; try discriminate.
  destruct Hin as [-> | Hin].
  - exists y. auto.
  - injection Hlen as Hlen. destruct (IH _ Hlen Hin) as [b Hb]. exists b. auto.
Qed.

(** Every vertex starts an edge. *)
Lemma vertex_on_boundary (v : Loc) (poly : list Loc) :
  In v poly -> OnBoundary v poly.
Proof.
  intros Hin. destruct poly as [ | p rest]; [contradiction | ].
  destruct (@combine_has_first _ _ (p :: rest) (rest ++ [p]) v) as [b Hb].
  - rewrite length_app. simpl. lia.
  - exact Hin.
  - exists v, b, 0. split; [exact Hb | ].
    split; [lra | split; ring].
Qed.

Lemma between_true (x u v t : Q) :
  0 <= t <= 1 -> x == u + t * (v - u) -> between x u v = true.
Proof.
  intros Ht Hx. unfold between. apply orb_true_iff.
  destruct (Qlt_le_dec v u) as [Hlt | Hle].
  - right. apply andb_true_iff. split; apply Qle_bool_iff; rewrite Hx; nra.
  - left. apply andb_true_iff. split; apply Qle_bool_iff; rewrite Hx; nra.
Qed.

Lemma onSegment_parametric (p a b : Loc) (t : Q) :
  0 <= t <= 1 ->
  c0 p == c0 a + t * (c0 b - c0 a) ->
  c1 p == c1 a + t * (c1 b - c1 a) ->
  onSegment p (a, b) = true.
Proof.
  intros Ht H0 H1. unfold onSegment.
  rewrite (between_true Ht H0), (between_true Ht H1), !andb_true_r.
  apply Qeq_bool_iff. rewrite H0, H1. ring.
Qed.

Lemma boundary_is_inside (loc : Loc) (poly : list Loc) :
  OnBoundary loc poly -> geoIsPointInPoly (flat loc) (map flat poly) = true.
Proof.
  intros [a [b [t [Hin [Ht [H0 H1]]]]]]. unfold geoIsPointInPoly.
  apply orb_true_iff. left. apply existsb_exists.
  exists (flat a, flat b). split.
  - rewrite closedEdges_map. apply in_map_iff. exists (a, b). auto.
  - apply (onSegment_parametric (flat loc) (flat a) (flat b) Ht); assumption.
Qed.

Section PointInPolyFacts.

Variable valIsPointInPoly : Loc -> list Loc -> Validation.
Variable VRV_SETTING_SHOWWARNINGMESSAGE : bool.

Local Abbreviation inPoly :=
  (isPointInPoly valIsPointInPoly VRV_SETTING_SHOWWARNINGMESSAGE).

(** C7.  A vertex of the polygon, and more generally any location on one of
    its edges, is reported inside. *)
Theorem isPointInPoly_boundary_inclusive (loc : Loc) (poly : list Loc) :
  valFlag (valIsPointInPoly loc poly) = true ->
  (3 <= List.length poly)%nat ->
  WellFormed loc -> Forall WellFormed poly ->
  In loc poly \/ OnBoundary loc poly ->
  outcome (inPoly loc poly) = Return (Some true).
Proof.
  intros Hv _ Hl Hp Hon.
  assert (Hb : OnBoundary loc poly).
  { destruct Hon as [Hin | Hb]; [apply vertex_on_boundary | ]; assumption. }
  unfold isPointInPoly. rewrite Hv. simpl negb. cbv iota.
  rewrite outcome_bind, report_warning_outcome.
  rewrite (getitem_0 Hl), (getitem_1 Hl), !bind_ret.
  rewrite (strip2D_wellformed Hp), bind_ret.
  change [c0 loc; c1 loc] with (flat loc).
  rewrite (boundary_is_inside Hb). reflexivity.
Qed.

End PointInPolyFacts.

(** ** closestPointLoc2Path *)

Lemma for_range_S {S : Type} (body : nat -> S -> Py S) (start k : nat) (s : S) :
  for_range start (Datatypes.S k) body s
  = (s' <- body start s ;; for_range (Datatypes.S start) k body s').
Proof. reflexivity. Qed.

Lemma for_range_invariant {S : Type} (P : S -> Prop) (body : nat -> S -> Py S) :
  forall count start s,
    (forall i s, (start <= i < start + count)%nat -> P s ->
                 exists s', body i s = ret s' /\ P s') ->
    P s ->
    exists s', for_range start count body s = ret s' /\ P s'.
Proof.
  induction count as [ | k IH]; intros start s Hbody Hs; simpl.
  - exists s. auto.
  - destruct (Hbody start s) as [s1 [E1 H1]]; [lia | exact Hs | ].
    rewrite E1, bind_ret. apply IH; [ | exact H1].
    intros i s0 Hi. apply Hbody. lia.
Qed.

Lemma nth_setitem_same {A} (l : list A) (i : nat) (v d : A) :
  (i < List.length l)%nat -> nth i (setitem l i v) d = v.
Proof.
  revert i. induction l as [ | x l IH]; intros [ | i] H; simpl in *; try lia.
  - reflexivity.
  - apply IH. lia.
Qed.

Lemma read_write_same (s : Store) (r : Ref) (p : Loc) :
  List.length (read s r) = 3%nat -> read (write s r p) r = p.
Proof.
  destruct r as [ | i | k]; simpl; intros H; [reflexivity | | ].
  - apply nth_setitem_same.
    destruct (Nat.lt_ge_cases i (List.length (pathObjs s))) as [Hlt | Hge]; [exact Hlt | ].
    rewrite (nth_overflow _ _ Hge) in H. discriminate.
  - apply nth_setitem_same.
    destruct (Nat.lt_ge_cases k (List.length (builtObjs s))) as [Hlt | Hge]; [exact Hlt | ].
    rewrite (nth_overflow _ _ Hge) in H. discriminate.
Qed.

Lemma altitude_overwritten (p : Loc) :
  List.length p = 3%nat -> AltitudeZero (setitem p 2 0).
Proof.
  destruct p as [ | x [ | y [ | z [ | w p]]]]; simpl; intros H; try discriminate.
  intros _. reflexivity.
Qed.

Section ClosestPointFacts.

Variable valClosestPointLoc2Path : Loc -> list Loc -> Validation.
Variable VRV_SETTING_SHOWWARNINGMESSAGE : bool.
Variable geoMinDistLoc2Line : Loc -> list Loc -> Q.
Variable geoClosestPointLoc2Line : Loc -> list Loc -> Handed.

Local Abbreviation closest :=
  (closestPointLoc2Path valClosestPointLoc2Path VRV_SETTING_SHOWWARNINGMESSAGE
     geoMinDistLoc2Line geoClosestPointLoc2Line).

Local Abbreviation scan :=
  (scanLine geoMinDistLoc2Line geoClosestPointLoc2Line).

Lemma settle (s : Store) (d : Q) (r : Ref) :
  exists st',
    (if (List.length (read s r) =? 3)%nat
     then ret (write s r (setitem (read s r) 2 0), Some d, Some r)
     else ret (s, Some d, Some r)) = ret st'
    /\ Settled st'
    /\ (forall loc path, Kept loc path (s, Some d, Some r) -> Kept loc path st').
Proof.
  destruct (List.length (read s r) =? 3)%nat eqn:E.
  - apply Nat.eqb_eq in E. eexists. split; [reflexivity | split].
    + do 3 eexists. split; [reflexivity | ].
      rewrite (read_write_same _ _ _ E). apply altitude_overwritten. exact E.
    + intros loc path [Hl [Hp Hr]]. destruct (Hr r eq_refl) as [k ->].
      simpl. repeat split; eauto.
  - apply Nat.eqb_neq in E. eexists. split; [reflexivity | split].
    + do 3 eexists. split; [reflexivity | ]. intros H. contradiction.
    + auto.
Qed.

Lemma scan_step (lstLine : list (nat * nat)) (i : nat) (st : Scan) :
  (i < List.length lstLine)%nat ->
  snd (fst st) = None \/ Settled st ->
  exists st',
    scan lstLine i st = ret st' /\ Settled st'
    /\ (BuildsItsOwn geoClosestPointLoc2Line ->
        forall loc path, Kept loc path st -> Kept loc path st').
Proof.
  intros Hi Hst. destruct st as [[s d] m]. unfold scanLine.
  rewrite (@getitem_nth _ lstLine i (0%nat, 0%nat) Hi), bind_ret.
  destruct (nth i lstLine (0%nat, 0%nat)) as [a b].
  set (line := [read s (AtPath a); read s (AtPath b)]).
  destruct (lessThan (geoMinDistLoc2Line (locObj s) line) d) eqn:E.
  - destruct (receive s a b (geoClosestPointLoc2Line (locObj s) line))
      as [s' r] eqn:Er.
    destruct (settle s' (geoMinDistLoc2Line (locObj s) line) r) as [st' [E' [HS HK]]].
    exists st'. split; [exact E' | split; [exact HS | ]].
    intros Hown loc path [Hl [Hp _]]. apply HK.
    destruct (Hown (locObj s) line) as [q Hq]. rewrite Hq in Er.
    simpl in Er. injection Er as <- <-. simpl. repeat split; eauto.
    intros r0 Hr0. injection Hr0 as <-. eauto.
  - destruct Hst as [Hnone | [s0 [d0 [r0 [Heq _]]]]].
    + simpl in Hnone. subst d. discriminate.
    + injection Heq as -> -> ->.
      destruct (settle s0 d0 r0) as [st' [E' [HS HK]]].
      exists st'. split; [exact E' | split; [exact HS | ]].
      intros _ loc path HKept. apply HK. exact HKept.
Qed.

Lemma lines_built (n : nat) :
  for_range 1 (n - 1)
    (fun i (lstLine : list (nat * nat)) => ret (lstLine ++ [((i - 1)%nat, i)])) []
  = ret (flat_map (fun i => [((i - 1)%nat, i)]) (seq 1 (n - 1))).
Proof.
  rewrite (for_range_append _ (fun i => [((i - 1)%nat, i)])); [reflexivity | ].
  intros. reflexivity.
Qed.

Lemma singletons_length {A B} (g : A -> B) (l : list A) :
  List.length (flat_map (fun i => [g i]) l) = List.length l.
Proof.
  induction l as [ | x l IH]; simpl; [reflexivity | rewrite IH; reflexivity].
Qed.

Lemma lines_count (n : nat) :
  List.length (flat_map (fun i => [((i - 1)%nat, i)]) (seq 1 (n - 1))) = (n - 1)%nat.
Proof.
  rewrite (singletons_length (fun i => ((i - 1)%nat, i))). apply length_seq.
Qed.

(** What the function does get right.  An accepted call on a path of at
    least two points returns a point and a distance, and a returned point
    of three components has altitude 0.  With a helper that always builds a
    list of its own, [loc] and [path] are afterwards as they were. *)
Lemma returned_altitude_is_zero (loc : Loc) (path : list Loc) :
  valFlag (valClosestPointLoc2Path loc path) = true ->
  (2 <= List.length path)%nat ->
  exists res minPoint distMeters,
    outcome (closest loc path) = Return res
    /\ found res = Some (minPoint, distMeters)
    /\ AltitudeZero minPoint
    /\ (BuildsItsOwn geoClosestPointLoc2Line ->
        locAfter res = loc /\ pathAfter res = path).
Proof.
  intros Hv Hn. unfold closestPointLoc2Path. rewrite Hv. simpl negb. cbv iota.
  rewrite outcome_bind, report_warning_outcome.
  rewrite lines_built, bind_ret.
  set (lstLine := flat_map (fun i => [((i - 1)%nat, i)]) (seq 1 (List.length path - 1))).
  assert (Hlen : List.length lstLine = S (List.length path - 2)).
  { unfold lstLine. rewrite lines_count. lia. }
  rewrite Hlen.
  set (init := ({| locObj := loc; pathObjs := path; builtObjs := [] |},
                @None Q, @None Ref)).
  rewrite for_range_S.
  destruct (@scan_step lstLine 0 init) as [st1 [E1 [HS1 HK1]]];
    [lia | left; reflexivity | ].
  rewrite E1, bind_ret.
  destruct (@for_range_invariant Scan
              (fun st => Settled st
                         /\ (BuildsItsOwn geoClosestPointLoc2Line -> Kept loc path st))
              (scan lstLine) (List.length path - 2) 1 st1)
    as [st [E [HS HK]]].
  - intros i st0 Hi [HS0 HK0].
    destruct (@scan_step lstLine i st0) as [st' [E' [HS' HK']]];
      [lia | right; exact HS0 | ].
    exists st'. split; [exact E' | split; [exact HS' | ]].
    intros Hown. apply HK'; auto.
  - split; [exact HS1 | ]. intros Hown. apply HK1; [exact Hown | ].
    simpl. repeat split. intros r Hr. discriminate.
  - rewrite E, bind_ret.
    destruct HS as [s [d [r [-> Halt]]]].
    eexists. exists (read s r), d. split; [reflexivity | ].
    split; [reflexivity | split; [exact Halt | ]].
    intros Hown. destruct (HK Hown) as [Hl [Hp _]]. simpl. auto.
Qed.

Lemma nth_setitem_other {A} (l : list A) (i j : nat) (v d : A) :
  i <> j -> nth i (setitem l j v) d = nth i l d.
Proof.
  revert i j. induction l as [ | y l IH]; intros [ | i] [ | j] H; simpl;
    try reflexivity; try contradiction.
  apply IH. lia.
Qed.

Lemma setitem_again {A} (l : list A) (i : nat) (v : A) :
  setitem (setitem l i v) i v = setitem l i v.
Proof.
  revert i. induction l as [ | y l IH]; intros [ | i]; simpl; try reflexivity.
  rewrite IH. reflexivity.
Qed.

Lemma length_setitem {A} (l : list A) (i : nat) (v : A) :
  List.length (setitem l i v) = List.length l.
Proof.
  revert i. induction l as [ | y l IH]; intros [ | i]; simpl; try reflexivity.
  rewrite IH. reflexivity.
Qed.

Lemma receive_path (s : Store) (a b : nat) (h : Handed) :
  pathObjs (fst (receive s a b h)) = pathObjs s.
Proof. destruct h; reflexivity. Qed.

(** Once [path[i]] holds altitude 0 in place of its own, the assignment of
    line 1839 leaves it so. *)
Lemma settle_keeps_zero (s : Store) (d : Q) (r : Ref) (i : nat) (p : Loc) :
  List.length p = 3%nat ->
  nth i (pathObjs s) [] = setitem p 2 0 ->
  exists s',
    (if (List.length (read s r) =? 3)%nat
     then ret (write s r (setitem (read s r) 2 0), Some d, Some r)
     else ret (s, Some d, Some r)) = ret (s', Some d, Some r)
    /\ nth i (pathObjs s') [] = setitem p 2 0.
Proof.
  intros Hp Hi. destruct (List.length (read s r) =? 3)%nat.
  - eexists. split; [reflexivity | ].
    destruct r as [ | j | k]; simpl; try exact Hi.
    destruct (Nat.eq_dec i j) as [<- | Hne].
    + rewrite nth_setitem_same.
      * rewrite Hi. apply setitem_again.
      * destruct (Nat.lt_ge_cases i (List.length (pathObjs s))) as [Hlt | Hge];
          [exact Hlt | ].
        rewrite (nth_overflow _ _ Hge) in Hi.
        apply (f_equal (@List.length Q)) in Hi.
        rewrite length_setitem, Hp in Hi. discriminate.
    + rewrite nth_setitem_other by exact Hne. exact Hi.
  - eexists. split; [reflexivity | exact Hi].
Qed.

Lemma scan_keeps_zero (lstLine : list (nat * nat)) (j : nat) (s : Store)
    (d : Q) (r : Ref) (i : nat) (p : Loc) :
  (j < List.length lstLine)%nat ->
  List.length p = 3%nat ->
  nth i (pathObjs s) [] = setitem p 2 0 ->
  exists s' d' r',
    scan lstLine j (s, Some d, Some r) = ret (s', Some d', Some r')
    /\ nth i (pathObjs s') [] = setitem p 2 0.
Proof.
  intros Hj Hp Hi. unfold scanLine.
  rewrite (@getitem_nth _ lstLine j (0%nat, 0%nat) Hj), bind_ret.
  destruct (nth j lstLine (0%nat, 0%nat)) as [a b].
  set (line := [read s (AtPath a); read s (AtPath b)]).
  destruct (lessThan (geoMinDistLoc2Line (locObj s) line) (Some d)).
  - pose proof (receive_path s a b (geoClosestPointLoc2Line (locObj s) line)) as Hrp.
    destruct (receive s a b (geoClosestPointLoc2Line (locObj s) line)) as [s1 r1].
    simpl in Hrp. rewrite <- Hrp in Hi.
    destruct (@settle_keeps_zero s1 (geoMinDistLoc2Line (locObj s) line) r1 i p Hp Hi)
      as [s' [E Hz]].
    exists s', (geoMinDistLoc2Line (locObj s) line), r1. split; assumption.
  - destruct (@settle_keeps_zero s d r i p Hp Hi) as [s' [E Hz]].
    exists s', d, r. split; assumption.
Qed.

(** C9.  The claim has the caller's [loc] and [path] unmodified.  The
    assignment [minPoint[2] = 0] of line 1839 writes into the list the
    segment helper handed back.  Whenever, on the first line of an accepted
    call, that list is one of the line's two ends, [path[i]], and carries an
    altitude other than 0, the call returns with the caller's [path[i]]
    holding altitude 0: the path is no longer what the caller passed. *)
Theorem closestPointLoc2Path_overwrites_path (loc : Loc) (path : list Loc)
    (i : nat) (p : Loc) :
  valFlag (valClosestPointLoc2Path loc path) = true ->
  (2 <= List.length path)%nat ->
  firstLineEnd (geoClosestPointLoc2Line loc [nth 0 path []; nth 1 path []])
  = Some i ->
  nth i path [] = p ->
  List.length p = 3%nat ->
  ~ nth 2 p 0 == 0 ->
  exists res minPoint distMeters,
    outcome (closest loc path) = Return res
    /\ found res = Some (minPoint, distMeters)
    /\ nth i (pathAfter res) [] = setitem p 2 0
    /\ pathAfter res <> path.
Proof.
  intros Hv Hn Hend Hi Hp Halt.
  unfold closestPointLoc2Path. rewrite Hv. simpl negb. cbv iota.
  rewrite outcome_bind, report_warning_outcome.
  rewrite lines_built, bind_ret.
  assert (Hfirst : exists rest,
             flat_map (fun i => [((i - 1)%nat, i)]) (seq 1 (List.length path - 1))
             = (0%nat, 1%nat) :: rest).
  { destruct (List.length path) as [ | [ | n]]; try lia.
    simpl. eexists. reflexivity. }
  pose proof (lines_count (List.length path)) as Hcount.
  destruct Hfirst as [rest Hlines]. rewrite Hlines in *.
  set (lstLine := (0%nat, 1%nat) :: rest) in *.
  assert (Hlen : List.length lstLine = S (List.length path - 2)) by lia.
  rewrite Hlen, for_range_S.
  set (init := {| locObj := loc; pathObjs := path; builtObjs := [] |}).
  assert (Hi2 : (i < List.length path)%nat).
  { destruct (geoClosestPointLoc2Line loc [nth 0 path []; nth 1 path []]);
      simpl in Hend; try discriminate; injection Hend as <-; lia. }
  assert (E1 : exists d1,
             scan lstLine 0 (init, None, None)
             = ret (write init (AtPath i) (setitem p 2 0), Some d1, Some (AtPath i))).
  { unfold scanLine. change (getitem lstLine 0) with (ret (0%nat, 1%nat)).
    rewrite bind_ret. simpl lessThan. cbv iota.
    change (read init (AtPath 0)) with (nth 0 path []).
    change (read init (AtPath 1)) with (nth 1 path []).
    change (locObj init) with loc.
    destruct (geoClosestPointLoc2Line loc [nth 0 path []; nth 1 path []]);
      simpl in Hend; try discriminate; injection Hend as <-; simpl receive;
      cbv iota beta;
      (change (read init (AtPath 0)) with (nth 0 path [])
       || change (read init (AtPath 1)) with (nth 1 path []));
      rewrite Hi, Hp; simpl Nat.eqb; cbv iota; eexists; reflexivity. }
  destruct E1 as [d1 E1]. rewrite E1, bind_ret.
  destruct (@for_range_invariant Scan
              (fun st => exists s d r,
                   st = (s, Some d, Some r)
                   /\ nth i (pathObjs s) [] = setitem p 2 0)
              (scan lstLine) (List.length path - 2) 1
              (write init (AtPath i) (setitem p 2 0), Some d1, Some (AtPath i)))
    as [st [E [s [d [r [-> Hz]]]]]].
  - intros j st0 Hj [s0 [d0 [r0 [-> Hz0]]]].
    destruct (@scan_keeps_zero lstLine j s0 d0 r0 i p) as [s' [d' [r' [E' Hz']]]];
      [lia | exact Hp | exact Hz0 | ].
    exists (s', Some d', Some r'). split; [exact E' | ].
    exists s', d', r'. split; [reflexivity | exact Hz'].
  - do 3 eexists. split; [reflexivity | ].
    simpl. apply nth_setitem_same. exact Hi2.
  - rewrite E, bind_ret.
    eexists. exists (read s r), d. split; [reflexivity | ].
    split; [reflexivity | ]. simpl. split; [exact Hz | ].
    intros Heq. rewrite Heq, Hi in Hz. apply Halt.
    rewrite Hz. destruct p as [ | x [ | y [ | z [ | w p]]]]; simpl in Hp;
      try discriminate. reflexivity.
Qed.

End ClosestPointFacts.

(** ** The statements on explicit inputs *)

Lemma wellformed_ground : WellFormed ground.
Proof. unfold WellFormed, ground. simpl. lia. Qed.

Lemma wellformed_above : WellFormed above.
Proof. unfold WellFormed, above. simpl. lia. Qed.

(** C1 at [ground] to [above], grid mode, ten seconds requested. *)
Lemma getShapepoints2D_override_not_reached_witness :
  ~ exists rows last,
      outcome (runShapepoints 1 None None ground above 0 (Some 10) "manhattan"
                 None plainStyle None None)
      = Return (Some (rows ++ [last]))
      /\ endTimeSec last == 0 + 10.
Proof.
  apply (@getShapepoints2D_override_not_reached planarDistance acceptShapepoints
           true 10 providerTable (fun f => f)
           (fun s e _ => straightRoute s e) straightRoute
           (fun s e _ _ => straightRoute s e) (fun s e _ _ => straightRoute s e)
           1%Z None None ground above 0 (Some 10) "manhattan" None plainStyle
           None None 10).
  - exact planarDistance_same_place.
  - reflexivity.
  - exact wellformed_ground.
  - exact wellformed_above.
  - reflexivity.
  - reflexivity.
  - reflexivity.
  - reflexivity.
  - reflexivity.
Defined.

(** C4 at the same call. *)
Lemma getShapepoints2D_divides_by_zero_witness :
  outcome (runShapepoints 1 None None ground above 0 (Some 10) "manhattan"
             None plainStyle None None)
  = Raise ZeroDivisionError.
Proof.
  apply (@getShapepoints2D_divides_by_zero planarDistance acceptShapepoints
           true 10 providerTable (fun f => f)
           (fun s e _ => straightRoute s e) straightRoute
           (fun s e _ _ => straightRoute s e) (fun s e _ _ => straightRoute s e)
           1%Z None None ground above 0 (Some 10) "manhattan" None plainStyle
           None None 10).
  - exact planarDistance_same_place.
  - reflexivity.
  - exact wellformed_ground.
  - exact wellformed_above.
  - reflexivity.
  - reflexivity.
  - reflexivity.
  - reflexivity.
  - reflexivity.
Defined.

(** C5 at the same two locations. *)
Lemma manhattan_split_zero_length_witness :
  _manGetShapepointsTimeDist planarDistance ground above None (Some 10) true
  = raise ZeroDivisionError.
Proof.
  apply (@manhattan_split_zero_length planarDistance ground above None 10 true).
  - exact planarDistance_same_place.
  - exact wellformed_ground.
  - exact wellformed_above.
  - reflexivity.
  - reflexivity.
Defined.

(** C2 on [1, 2] and [1, 2, 0], one place written as two different lists,
    in grid mode with ten seconds to spend: the call raises
    ZeroDivisionError, and returns no single row. *)
Lemma getShapepoints2D_same_place_not_one_row_witness :
  toDict [1; 2] = toDict [1; 2; 0]
  /\ outcome (runShapepoints 1 None None [1; 2] [1; 2; 0] 520 (Some 10)
                "manhattan" None plainStyle None None)
     = Raise ZeroDivisionError
  /\ forall row,
       outcome (runShapepoints 1 None None [1; 2] [1; 2; 0] 520 (Some 10)
                  "manhattan" None plainStyle None None)
       <> Return (Some [row]).
Proof.
  split; [reflexivity | split; [vm_compute; reflexivity | ]].
  apply (@getShapepoints2D_same_place_not_one_row planarDistance
           acceptShapepoints true 10 providerTable (fun f => f)
           (fun s e _ => straightRoute s e) straightRoute
           (fun s e _ _ => straightRoute s e) (fun s e _ _ => straightRoute s e)
           1%Z None None [1; 2] [1; 2; 0] 520 (Some 10) "manhattan" None
           plainStyle None None); reflexivity.
Defined.

(** A vehicle that stays at [ground], one list for start and end, for ten
    seconds from time 520. *)
Lemma getShapepoints2D_same_location_witness :
  exists row,
    outcome (runShapepoints 1 None None ground ground 520 (Some 10) "fastest"
               None plainStyle (Some "ORS-online") None)
    = Return (Some [row])
    /\ startTimeSec row = 520 /\ endTimeSec row == 520 + 10.
Proof.
  destruct (@getShapepoints2D_same_location planarDistance acceptShapepoints
              true 10 providerTable (fun f => f)
              (fun s e _ => straightRoute s e) straightRoute
              (fun s e _ _ => straightRoute s e) (fun s e _ _ => straightRoute s e)
              1%Z None None ground ground 520 (Some 10) "fastest" None plainStyle
              (Some "ORS-online") None)
    as [row [H1 [H2 [_ [_ [_ [_ [_ H3]]]]]]]].
  - reflexivity.
  - exact wellformed_ground.
  - reflexivity.
  - exists row. auto.
Defined.



(** C6, the claim as stated: from [0, 0] to [1, 1] the rule as
    getShapepoints2D calls it turns at [1, 0], which has neither the
    start's latitude nor the end's longitude. *)
Lemma manhattan_default_corner_counterexample :
  exists corner time dist,
    _manGetShapepointsTimeDist planarDistance [0; 0] [1; 1] (Some 16) None true
    = ret ([[0; 0]; corner; [1; 1]], time, dist)
    /\ corner = [1; 0]
    /\ ~ c0 corner == c0 [0; 0] /\ ~ c1 corner == c1 [1; 1].
Proof.
  exists [1; 0]. do 2 eexists.
  split; [vm_compute; reflexivity | ].
  split; [reflexivity | ].
  split; vm_compute; discriminate.
Qed.

(** C6 as amended, on the same two locations and the other way round. *)
Lemma manhattan_path_corner_witness :
  exists corner time dist,
    _manGetShapepointsTimeDist planarDistance [0; 0] [1; 1] (Some 16) None false
    = ret ([[0; 0]; corner; [1; 1]], time, dist)
    /\ corner = [0; 1].
Proof.
  apply (@manhattan_path_corner planarDistance [0; 0] [1; 1] (Some 16) None false).
  - unfold WellFormed. simpl. lia.
  - unfold WellFormed. simpl. lia.
  - exists 16. split; [reflexivity | ]. intros H. discriminate H.
Defined.

(** C7 on the third docstring example: the location halfway along the edge
    from [42.10, -78.10] to [42.00, -78.10]. *)
Lemma isPointInPoly_boundary_inclusive_witness :
  outcome (isPointInPoly acceptLocAndPath true onEdge triangle)
  = Return (Some true).
Proof.
  apply (@isPointInPoly_boundary_inclusive acceptLocAndPath true onEdge triangle).
  - reflexivity.
  - simpl. lia.
  - unfold WellFormed. simpl. lia.
  - repeat constructor; unfold WellFormed; simpl; lia.
  - right. exists [421 # 10; -781 # 10], [42; -781 # 10], (1 # 2).
    split; [simpl; auto | ].
    split; [split; discriminate | ].
    split; reflexivity.
Defined.

(** The first two docstring examples, inside and outside the triangle. *)
Example isPointInPoly_inside :
  isPointInPoly acceptLocAndPath true [4203 # 100; -7805 # 100] triangle
  = ret (Some true).
Proof. vm_compute. reflexivity. Qed.

Example isPointInPoly_outside :
  isPointInPoly acceptLocAndPath true [4207 # 100; -7805 # 100] triangle
  = ret (Some false).
Proof. vm_compute. reflexivity. Qed.

(** C8 on the grid route from [0, 0] to [1, 1] in ten seconds from time 520:
    two rows, meeting at the corner after five seconds. *)
Lemma getShapepoints2D_rows_contiguous_witness :
  exists r1 r2,
    outcome (runShapepoints 1 None None [0; 0] [1; 1] 520 (Some 10) "manhattan"
               None plainStyle None None)
    = Return (Some [r1; r2])
    /\ StartsAt 520 [r1; r2] /\ Chained [r1; r2].
Proof.
  do 2 eexists. split; [vm_compute; reflexivity | ].
  apply (@getShapepoints2D_rows_contiguous planarDistance acceptShapepoints
           true 10 providerTable (fun f => f)
           (fun s e _ => straightRoute s e) straightRoute
           (fun s e _ _ => straightRoute s e) (fun s e _ _ => straightRoute s e)
           1%Z None None [0; 0] [1; 1] 520 (Some 10) "manhattan" None plainStyle
           None None).
  vm_compute. reflexivity.
Defined.

(** C9 on the third docstring example, with a segment helper that hands
    back the nearer end of the segment as it stands in the path: the
    caller's first path point held altitude 100 and holds 0 after the
    call. *)
Lemma closestPointLoc2Path_overwrites_path_witness :
  exists res minPoint distMeters,
    outcome (closestPointLoc2Path acceptLocAndPath true nearerEndDistance nearerEnd
               loc3 path2) = Return res
    /\ found res = Some (minPoint, distMeters)
    /\ nth 0 path2 [] = [425 # 10; -784 # 10; 100]
    /\ nth 0 (pathAfter res) [] = [425 # 10; -784 # 10; 0]
    /\ pathAfter res <> path2.
Proof.
  destruct (@closestPointLoc2Path_overwrites_path acceptLocAndPath true
              nearerEndDistance nearerEnd loc3 path2 0%nat
              [425 # 10; -784 # 10; 100])
    as [res [minPoint [d [H1 [H2 [H3 H4]]]]]].
  - reflexivity.
  - simpl. lia.
  - vm_compute. reflexivity.
  - reflexivity.
  - reflexivity.
  - intros H. vm_compute in H. discriminate H.
  - exists res, minPoint, d.
    split; [exact H1 | split; [exact H2 | split; [reflexivity | ]]].
    split; [exact H3 | exact H4].
Defined.

(** The same call with a helper that copies the nearer end into a list of
    its own: the returned point has altitude 0 and the caller's lists are
    as they were. *)
Lemma closestPointLoc2Path_copying_helper :
  exists res minPoint distMeters,
    outcome (closestPointLoc2Path acceptLocAndPath true nearerEndDistance
               nearerEndCopy loc3 path2) = Return res
    /\ found res = Some (minPoint, distMeters)
    /\ AltitudeZero minPoint
    /\ locAfter res = loc3 /\ pathAfter res = path2.
Proof.
  destruct (@returned_altitude_is_zero acceptLocAndPath true nearerEndDistance
              nearerEndCopy loc3 path2)
    as [res [p [d [H1 [H2 [H3 H4]]]]]].
  - reflexivity.
  - simpl. lia.
  - exists res, p, d. repeat split; try assumption; apply H4;
      intros l ln; unfold nearerEndCopy;
      destruct (Qlt_bool (planarDistance l (nth 0 ln []))
                         (planarDistance l (nth 1 ln []))); eauto.
Qed.

(** C10 on [crowded], with the hull scipy reports for it. *)
Lemma getConvexHull_rematches_by_tolerance_witness :
  exists ch,
    outcome (getConvexHull acceptLocs true hullOfCrowded crowded) = Return (Some ch)
    /\ List.length ch = 4%nat /\ In inner ch.
Proof.
  destruct (proj2 (@getConvexHull_rematches_by_tolerance acceptLocs true hullOfCrowded)
              [0%nat; 1%nat; 2%nat])
    as [ch [H1 [_ [H2 [H3 _]]]]].
  - reflexivity.
  - reflexivity.
  - apply Permutation_refl.
  - exists ch. auto.
Defined.

Example getConvexHull_crowded :
  getConvexHull acceptLocs true hullOfCrowded crowded
  = ret (Some [cornerA; inner; cornerB; cornerC]).
Proof. vm_compute. reflexivity. Qed.

(** ** Unit conversions *)

Section AreaFacts.

Variable VRV_SETTING_SHOWWARNINGMESSAGE : bool.
Variable valConvertArea : Q -> string -> string -> Validation.
Variable areaUnitsDictionary : string -> option string.
Variable VRV_CONST_SQFT_PER_SQMETER : Q.
Variable VRV_CONST_SQMILES_PER_SQMETER : Q.
Variable VRV_CONST_SQKM_PER_SQMETER : Q.

Local Abbreviation toArea :=
  (convertArea VRV_SETTING_SHOWWARNINGMESSAGE valConvertArea areaUnitsDictionary
     VRV_CONST_SQFT_PER_SQMETER VRV_CONST_SQMILES_PER_SQMETER
     VRV_CONST_SQKM_PER_SQMETER).

(** X10.  Converting to square kilometres multiplies by
    VRV_CONST_SQFT_PER_SQMETER (line 317): the call comes to what converting
    the same area to square feet comes to. *)
Theorem convertArea_to_sqkm_is_to_sqft (area : Q) (fromUnits toKm toFt : string) :
  valFlag (valConvertArea area fromUnits toKm) = true ->
  valFlag (valConvertArea area fromUnits toFt) = true ->
  areaUnitsDictionary (lower toKm) = Some "sqkm" ->
  areaUnitsDictionary (lower toFt) = Some "sqft" ->
  outcome (toArea area fromUnits toKm) = outcome (toArea area fromUnits toFt).
Proof.
  intros Hv1 Hv2 Hkm Hft. unfold convertArea. rewrite Hv1, Hv2. simpl negb. cbv iota.
  rewrite !outcome_bind, !report_warning_outcome.
  destruct (outcome (lookup areaUnitsDictionary (lower fromUnits))) as [fu | e];
    [ | reflexivity].
  rewrite ?outcome_bind.
  match goal with
  | |- match outcome ?c with _ => _ end = _ => destruct (outcome c) as [tmpArea | e]
  end; [ | reflexivity].
  unfold lookup. rewrite Hkm, Hft. reflexivity.
Qed.

End AreaFacts.

(** ** Lengths along node sequences and paths *)

Lemma bind_ext {A B} (c : Py A) (f g : A -> Py B) :
  (forall a, f a = g a) -> bind c f = bind c g.
Proof.
  intros H. destruct c as [out [a | e]]; simpl; [rewrite H | ]; reflexivity.
Qed.

Lemma for_range_ext {S : Type} (body1 body2 : nat -> S -> Py S) :
  forall count start s,
    (forall i s, (start <= i < start + count)%nat -> body1 i s = body2 i s) ->
    for_range start count body1 s = for_range start count body2 s.
Proof.
  induction count as [ | k IH]; intros start s H; simpl; [reflexivity | ].
  rewrite (H start s) by lia. apply bind_ext. intros s'.
  apply IH. intros i s0 Hi. apply H. lia.
Qed.

(** One more turn of a loop: what it comes to is what its last turn makes
    of the state the turns before it left. *)
Lemma for_range_last {S : Type} (body : nat -> S -> Py S) :
  forall count start s s1,
    outcome (for_range start count body s) = Return s1 ->
    outcome (for_range start (Datatypes.S count) body s)
    = outcome (body (start + count)%nat s1).
Proof.
  induction count as [ | k IH]; intros start s s1 H.
  - simpl in H. injection H as <-. simpl. rewrite outcome_bind, Nat.add_0_r.
    destruct (outcome (body start s)); reflexivity.
  - rewrite for_range_S in H. step H s2 Hs2.
    rewrite for_range_S, outcome_bind, Hs2.
    rewrite (IH (Datatypes.S start) s2 s1 H).
    replace (Datatypes.S start + k)%nat with (start + Datatypes.S k)%nat by lia.
    reflexivity.
Qed.

Lemma nth_error_before {A} (l : list A) (a : A) (rest : list A) :
  forall j, (j <= List.length l)%nat ->
            nth_error (l ++ a :: rest) j = nth_error (l ++ [a]) j.
Proof.
  induction l as [ | y l IH]; intros [ | j] H; simpl in *; try reflexivity; try lia.
  apply IH. lia.
Qed.

Lemma nth_error_appended {A} (l : list A) (a x : A) :
  nth_error (l ++ [a; x]) (List.length l + 1) = Some x.
Proof.
  induction l as [ | y l IH]; simpl; [reflexivity | exact IH].
Qed.

(** The loop of lengthFromNodeSeq and distancePath2D over a sequence with one
    more element at its end: the sum over the sequence so far, and then the
    term of the new last pair added to it. *)
Lemma sumLoop_extends {A} (f : A -> A -> Py Q) (l : list A) (a x : A)
    (part leg : Q) :
  outcome (sumLoop (List.length (l ++ [a]) - 1)
             (fun i => p <- getitem (l ++ [a]) i ;;
                       q <- getitem (l ++ [a]) (i + 1) ;;
                       f p q)) = Return part ->
  outcome (f a x) = Return leg ->
  outcome (sumLoop (List.length (l ++ [a; x]) - 1)
             (fun i => p <- getitem (l ++ [a; x]) i ;;
                       q <- getitem (l ++ [a; x]) (i + 1) ;;
                       f p q)) = Return (part + leg).
Proof.
  unfold sumLoop. intros Hpart Hleg.
  replace (List.length (l ++ [a]) - 1)%nat with (List.length l) in Hpart
    by (rewrite length_app; simpl; lia).
  replace (List.length (l ++ [a; x]) - 1)%nat with (S (List.length l))
    by (rewrite length_app; simpl; lia).
  rewrite (for_range_last _ _ _ _ (s1 := part)).
  - assert (Ha : getitem (l ++ [a; x]) (List.length l) = ret a).
    { unfold getitem. rewrite nth_error_app2 by lia.
      rewrite Nat.sub_diag. reflexivity. }
    assert (Hx : getitem (l ++ [a; x]) (List.length l + 1) = ret x).
    { unfold getitem. rewrite nth_error_appended. reflexivity. }
    simpl plus. rewrite Ha, bind_ret, Hx, bind_ret, outcome_bind, Hleg.
    reflexivity.
  - rewrite <- Hpart. f_equal. apply for_range_ext.
    intros i total Hi. unfold getitem.
    rewrite (@nth_error_before _ l a [x] i) by lia.
    rewrite (@nth_error_before _ l a [x] (i + 1)) by lia.
    reflexivity.
Qed.

Section LengthFacts.

Variable VRV_SETTING_SHOWWARNINGMESSAGE : bool.
Variable geoDistance2D : Loc -> Loc -> Q.
Variable valLengthFromNodeSeq : list Z -> (Z * Z -> option Q) -> Validation.
Variable valDistancePath2D : list Loc -> Validation.

Local Abbreviation lengthOfSeq :=
  (lengthFromNodeSeq VRV_SETTING_SHOWWARNINGMESSAGE valLengthFromNodeSeq).

Local Abbreviation pathLength :=
  (distancePath2D VRV_SETTING_SHOWWARNINGMESSAGE geoDistance2D valDistancePath2D).

(** X12.  One more node at the end of a node sequence adds the length of
    the new arc: if the sequence ending in [a] has length [part] and the
    dictionary gives [leg] for the arc from [a] to [x], the sequence with
    [x] appended has length [part + leg], by the very addition the loop
    performs last. *)
Theorem lengthFromNodeSeq_extends (nodeSeq : list Z) (a x : Z)
    (lengthDict : Z * Z -> option Q) (part leg : Q) :
  outcome (lengthOfSeq (nodeSeq ++ [a]) lengthDict) = Return (Some part) ->
  lengthDict (a, x) = Some leg ->
  valFlag (valLengthFromNodeSeq (nodeSeq ++ [a; x]) lengthDict) = true ->
  outcome (lengthOfSeq (nodeSeq ++ [a; x]) lengthDict) = Return (Some (part + leg)).
Proof.
  intros Hpart Hleg Hv. unfold lengthFromNodeSeq in *. rewrite Hv.
  simpl negb. cbv iota.
  destruct (valFlag (valLengthFromNodeSeq (nodeSeq ++ [a]) lengthDict));
    simpl negb in Hpart; cbv iota in Hpart.
  2: { rewrite outcome_bind in Hpart. simpl in Hpart. discriminate. }
  step Hpart u Hu. clear Hu u. step Hpart total Htotal. injection Hpart as ->.
  rewrite outcome_bind, report_warning_outcome, outcome_bind.
  rewrite (@sumLoop_extends Z
             (fun p q => match lengthDict (p, q) with
                         | Some d => ret d
                         | None => raise KeyError
                         end) nodeSeq a x part leg Htotal).
  - reflexivity.
  - rewrite Hleg. reflexivity.
Qed.

(** X14.  One more location at the end of a path adds the distance of the
    new leg: if the path ending in [a] has length [part], the path with [x]
    appended has length [part + geoDistance2D(a, x)], by the very addition
    the loop performs last. *)
Theorem distancePath2D_extends (path : list Loc) (a x : Loc) (part : Q) :
  outcome (pathLength (path ++ [a])) = Return (Some part) ->
  valFlag (valDistancePath2D (path ++ [a; x])) = true ->
  outcome (pathLength (path ++ [a; x]))
  = Return (Some (part + geoDistance2D a x)).
Proof.
  intros Hpart Hv. unfold distancePath2D in *. rewrite Hv. simpl negb. cbv iota.
  destruct (valFlag (valDistancePath2D (path ++ [a])));
    simpl negb in Hpart; cbv iota in Hpart.
  2: { rewrite outcome_bind in Hpart. simpl in Hpart. discriminate. }
  step Hpart u Hu. clear Hu u. step Hpart total Htotal. injection Hpart as ->.
  rewrite outcome_bind, report_warning_outcome, outcome_bind.
  rewrite (@sumLoop_extends Loc (fun p q => ret (geoDistance2D p q))
             path a x part (geoDistance2D a x) Htotal).
  - reflexivity.
  - reflexivity.
Qed.

End LengthFacts.

Lemma distance2D_accepted (show : bool) (geoDistance2D : Loc -> Loc -> Q)
    (valDistance2D : Loc -> Loc -> Validation) (loc1 loc2 : Loc) :
  valFlag (valDistance2D loc1 loc2) = true ->
  outcome (distance2D show geoDistance2D valDistance2D loc1 loc2)
  = Return (Some (geoDistance2D loc1 loc2)).
Proof.
  intros Hv. unfold distance2D. rewrite Hv. simpl negb. cbv iota.
  rewrite outcome_bind, report_warning_outcome. reflexivity.
Qed.

(** ** closestNode2Loc *)

Lemma Qlt_bool_true (x y : Q) : Qlt_bool x y = true -> x < y.
Proof.
  unfold Qlt_bool. intros H. apply negb_true_iff in H.
  apply Qnot_le_lt. intros Hle. apply Qle_bool_iff in Hle.
  rewrite Hle in H. discriminate.
Qed.

Lemma Qlt_bool_false (x y : Q) : Qlt_bool x y = false -> y <= x.
Proof.
  unfold Qlt_bool. intros H. apply negb_false_iff in H.
  apply Qle_bool_iff. exact H.
Qed.

Lemma for_range_indexed {S : Type} (P : nat -> S -> Prop) (body : nat -> S -> Py S) :
  forall count start s,
    (forall i s, (start <= i < start + count)%nat -> P i s ->
                 exists s', outcome (body i s) = Return s' /\ P (Datatypes.S i) s') ->
    P start s ->
    exists s', outcome (for_range start count body s) = Return s'
               /\ P (start + count)%nat s'.
Proof.
  induction count as [ | k IH]; intros start s Hbody Hs; simpl.
  - exists s. rewrite Nat.add_0_r. auto.
  - destruct (Hbody start s) as [s1 [E1 H1]]; [lia | exact Hs | ].
    rewrite outcome_bind, E1.
    destruct (IH (Datatypes.S start) s1) as [s' [E' H']]; [ | exact H1 | ].
    + intros i s0 Hi. apply Hbody. lia.
    + exists s'. split; [exact E' | ].
      replace (start + Datatypes.S k)%nat with (Datatypes.S start + k)%nat by lia.
      exact H'.
Qed.

Section ClosestNodeFacts.

Variable VRV_SETTING_SHOWWARNINGMESSAGE : bool.
Variable geoDistance2D : Loc -> Loc -> Q.
Variable valDistance2D : Loc -> Loc -> Validation.
Variable valClosestNode2Loc : Loc -> list NodeRow -> Validation.

Local Abbreviation closestNode :=
  (closestNode2Loc VRV_SETTING_SHOWWARNINGMESSAGE geoDistance2D valDistance2D
     valClosestNode2Loc).

Local Abbreviation away := (nodeDistance geoDistance2D).

(** X16.  For a non-empty Nodes dataframe closestNode2Loc returns the ID
    and the distance of a nearest node, and of the first of them in
    dataframe order when several are equally near. *)
Theorem closestNode2Loc_nearest (loc : Loc) (nodes : list NodeRow) :
  valFlag (valClosestNode2Loc loc nodes) = true ->
  (forall n, In n nodes ->
             valFlag (valDistance2D loc [nodeLat n; nodeLon n]) = true) ->
  nodes <> [] ->
  exists j node,
    nth_error nodes j = Some node
    /\ outcome (closestNode loc nodes)
       = Return (Some (nodeID node), Some (away loc node))
    /\ (forall n, In n nodes -> away loc node <= away loc n)
    /\ (forall i n, (i < j)%nat -> nth_error nodes i = Some n ->
                    away loc node < away loc n).
Proof.
  intros Hv Hd Hne. unfold closestNode2Loc. rewrite Hv. simpl negb. cbv iota.
  set (P := fun (k : nat) (st : option Q * option Z) =>
              (k = 0%nat /\ st = (None, None))
              \/ exists j node,
                   (j < k)%nat /\ nth_error nodes j = Some node
                   /\ st = (Some (away loc node), Some (nodeID node))
                   /\ (forall i n, (i < k)%nat -> nth_error nodes i = Some n ->
                                   away loc node <= away loc n)
                   /\ (forall i n, (i < j)%nat -> nth_error nodes i = Some n ->
                                   away loc node < away loc n)).
  match goal with
  | |- context [for_range 0 ?n ?b ?s0] =>
      destruct (@for_range_indexed _ P b n 0%nat s0) as [st [E HP]]
  end.
  - intros i st Hi HPi. destruct st as [d m].
    destruct (nth_error nodes i) as [node | ] eqn:En;
      [ | apply nth_error_None in En; lia].
    rewrite (getitem_Some _ _ En), bind_ret.
    rewrite outcome_bind.
    rewrite (distance2D_accepted _ _ _ _ _ (Hd _ (nth_error_In _ _ En))).
    fold (away loc node).
    assert (Hnew : P (S i) (Some (away loc node), Some (nodeID node)) ->
                   lessThan (away loc node) d = true ->
                   exists s',
                     outcome (if lessThan (away loc node) d
                              then ret (Some (away loc node), Some (nodeID node))
                              else ret (d, m)) = Return s' /\ P (S i) s').
    { intros Hp Ht. rewrite Ht. eexists. split; [reflexivity | exact Hp]. }
    destruct HPi as [[Hi0 Hst] | [j [nj [Hj [Enj [Hst [Hmin Hfirst]]]]]]].
    + injection Hst as -> ->. subst i. apply Hnew; [ | reflexivity].
      right. exists 0%nat, node. repeat split; try assumption; try lia.
      intros i n Hi1 Ein. assert (i = 0%nat) by lia. subst i.
      rewrite En in Ein. injection Ein as <-. apply Qle_refl.
    + injection Hst as -> ->. simpl lessThan.
      destruct (Qlt_bool (away loc node) (away loc nj)) eqn:Elt.
      * apply Qlt_bool_true in Elt.
        eexists. split; [reflexivity | ].
        right. exists i, node. repeat split; try assumption; try lia.
        -- intros i' n Hi' Ein.
           destruct (Nat.eq_dec i' i) as [-> | Hneq].
           ++ rewrite En in Ein. injection Ein as <-. apply Qle_refl.
           ++ apply Qlt_le_weak. apply (Qlt_le_trans _ _ _ Elt).
              apply (Hmin i' n); [lia | exact Ein].
        -- intros i' n Hi' Ein. apply (Qlt_le_trans _ _ _ Elt).
           apply (Hmin i' n); [lia | exact Ein].
      * apply Qlt_bool_false in Elt.
        eexists. split; [reflexivity | ].
        right. exists j, nj. repeat split; try assumption; try lia.
        intros i' n Hi' Ein.
        destruct (Nat.eq_dec i' i) as [-> | Hneq].
        -- rewrite En in Ein. injection Ein as <-. exact Elt.
        -- apply (Hmin i' n); [lia | exact Ein].
  - left. auto.
  - destruct HP as [[H0 _] | [j [node [Hj [En [-> [Hmin Hfirst]]]]]]].
    + destruct nodes; [contradiction | discriminate].
    + exists j, node. split; [exact En | split; [ | split]].
      * rewrite outcome_bind, report_warning_outcome, outcome_bind, E. reflexivity.
      * intros n Hin. apply In_nth_error in Hin. destruct Hin as [i Hi].
        apply (Hmin i n); [ | exact Hi].
        apply nth_error_Some. rewrite Hi. discriminate.
      * exact Hfirst.
Qed.

End ClosestNodeFacts.

(** ** getMapBoundary *)

Lemma fold_max_bounds (rest : list Q) :
  forall m,
    m <= fold_left (fun m x => if Qlt_bool m x then x else m) rest m
    /\ forall x, In x rest ->
                 x <= fold_left (fun m x => if Qlt_bool m x then x else m) rest m.
Proof.
  induction rest as [ | y rest IH]; intros m; simpl.
  - split; [apply Qle_refl | intros x []].
  - destruct (IH (if Qlt_bool m y then y else m)) as [Hm Hin].
    assert (Hstep : m <= (if Qlt_bool m y then y else m)
                    /\ y <= (if Qlt_bool m y then y else m)).
    { destruct (Qlt_bool m y) eqn:E.
      - split; [apply Qlt_le_weak, Qlt_bool_true, E | apply Qle_refl].
      - split; [apply Qle_refl | apply Qlt_bool_false, E]. }
    destruct Hstep as [H1 H2]. split.
    + apply (Qle_trans _ _ _ H1 Hm).
    + intros x [<- | Hx]; [apply (Qle_trans _ _ _ H2 Hm) | apply Hin, Hx].
Qed.

Lemma fold_min_bounds (rest : list Q) :
  forall m,
    fold_left (fun m x => if Qlt_bool x m then x else m) rest m <= m
    /\ forall x, In x rest ->
                 fold_left (fun m x => if Qlt_bool x m then x else m) rest m <= x.
Proof.
  induction rest as [ | y rest IH]; intros m; simpl.
  - split; [apply Qle_refl | intros x []].
  - destruct (IH (if Qlt_bool y m then y else m)) as [Hm Hin].
    assert (Hstep : (if Qlt_bool y m then y else m) <= m
                    /\ (if Qlt_bool y m then y else m) <= y).
    { destruct (Qlt_bool y m) eqn:E.
      - split; [apply Qlt_le_weak, Qlt_bool_true, E | apply Qle_refl].
      - split; [apply Qle_refl | apply Qlt_bool_false, E]. }
    destruct Hstep as [H1 H2]. split.
    + apply (Qle_trans _ _ _ Hm H1).
    + intros x [<- | Hx]; [apply (Qle_trans _ _ _ Hm H2) | apply Hin, Hx].
Qed.

Lemma Qmaximum_upper (first : Q) (rest : list Q) (x : Q) :
  In x (first :: rest) -> x <= Qmaximum first rest.
Proof.
  unfold Qmaximum. destruct (fold_max_bounds rest first) as [H1 H2].
  intros [<- | Hx]; [exact H1 | apply H2, Hx].
Qed.

Lemma Qminimum_lower (first : Q) (rest : list Q) (x : Q) :
  In x (first :: rest) -> Qminimum first rest <= x.
Proof.
  unfold Qminimum. destruct (fold_min_bounds rest first) as [H1 H2].
  intros [<- | Hx]; [exact H1 | apply H2, Hx].
Qed.

Lemma firstn_next {A} (l : list A) :
  forall i a, nth_error l i = Some a -> firstn (S i) l = firstn i l ++ [a].
Proof.
  induction l as [ | x l IH]; intros [ | i] a H; simpl in H; try discriminate.
  - injection H as ->. reflexivity.
  - simpl. f_equal. apply (IH i a H).
Qed.

Lemma coordinates_loop (locs : list Loc) (lats lons : list Q) :
  Forall WellFormed locs ->
  outcome (for_range 0 (List.length locs)
             (fun i (ll : list Q * list Q) =>
                p <- getitem locs i ;;
                p0 <- getitem p 0 ;;
                p1 <- getitem p 1 ;;
                ret (fst ll ++ [p0], snd ll ++ [p1]))
             (lats, lons))
  = Return (lats ++ map c0 locs, lons ++ map c1 locs).
Proof.
  intros Hwf.
  set (P := fun (k : nat) (ll : list Q * list Q) =>
              ll = (lats ++ map c0 (firstn k locs), lons ++ map c1 (firstn k locs))).
  match goal with
  | |- outcome (for_range 0 ?n ?b ?s0) = _ =>
      destruct (@for_range_indexed _ P b n 0%nat s0) as [st [E HP]]
  end.
  - intros i ll Hi HPi. unfold P in HPi. subst ll.
    destruct (nth_error locs i) as [p | ] eqn:En;
      [ | apply nth_error_None in En; lia].
    assert (Hp : WellFormed p).
    { rewrite Forall_forall in Hwf. apply Hwf. apply (nth_error_In _ _ En). }
    rewrite (getitem_Some _ _ En), bind_ret.
    rewrite (getitem_0 Hp), bind_ret, (getitem_1 Hp), bind_ret.
    eexists. split; [reflexivity | ].
    unfold P. rewrite (firstn_next _ _ En), !map_app, !app_assoc. reflexivity.
  - unfold P. simpl. rewrite !app_nil_r. reflexivity.
  - rewrite E. unfold P in HP. simpl in HP. rewrite firstn_all in HP.
    rewrite HP. reflexivity.
Qed.

Lemma coordinates_same_length (nodes : option (list NodeRow))
    (arcs : option (list Row)) (locs : option (list Loc)) :
  List.length (allLatitudes nodes arcs locs)
  = List.length (allLongitudes nodes arcs locs).
Proof.
  unfold allLatitudes, allLongitudes.
  destruct nodes, arcs, locs; rewrite ?length_app, ?length_map; reflexivity.
Qed.

Section MapBoundaryFacts.

Variable VRV_SETTING_SHOWWARNINGMESSAGE : bool.
Variable valGetMapBoundary :
  option (list NodeRow) -> option (list Row) -> option (list Loc) -> Validation.

Local Abbreviation boundary :=
  (getMapBoundary VRV_SETTING_SHOWWARNINGMESSAGE valGetMapBoundary).

Lemma coordinates_collected (nodes : option (list NodeRow))
    (arcs : option (list Row)) (locs : option (list Loc)) :
  valFlag (valGetMapBoundary nodes arcs locs) = true ->
  (forall l, locs = Some l -> Forall WellFormed l) ->
  outcome (boundary nodes arcs locs)
  = match allLatitudes nodes arcs locs, allLongitudes nodes arcs locs with
    | lat1 :: lats, lon1 :: lons =>
        let maxLat := Qmaximum lat1 lats in
        let minLat := Qminimum lat1 lats in
        let maxLon := Qmaximum lon1 lons in
        let minLon := Qminimum lon1 lons in
        let '(maxLat, minLat) :=
          if Qlt_bool (Qabs (maxLat - minLat)) (1 # 10000)
          then (maxLat + (5 # 100), minLat - (5 # 100))
          else (maxLat, minLat) in
        let '(maxLon, minLon) :=
          if Qlt_bool (Qabs (maxLon - minLon)) (1 # 10000)
          then (maxLon + (5 # 100), minLon - (5 # 100))
          else (maxLon, minLon) in
        Return (Rectangle [minLat - (1 # 100); maxLon + (1 # 100)]
                          [maxLat + (1 # 100); minLon - (1 # 100)])
    | _, _ => Return RaisedValueError
    end.
Proof.
  intros Hv Hwf. unfold getMapBoundary. rewrite Hv. simpl negb. cbv iota.
  rewrite outcome_bind, report_warning_outcome.
  assert (Hll : forall lats lons,
             outcome (match locs with
                      | Some locs =>
                          for_range 0 (List.length locs)
                            (fun i (ll : list Q * list Q) =>
                               p <- getitem locs i ;;
                               p0 <- getitem p 0 ;;
                               p1 <- getitem p 1 ;;
                               ret (fst ll ++ [p0], snd ll ++ [p1]))
                            (lats, lons)
                      | None => ret (lats, lons)
                      end)
             = Return (lats ++ match locs with Some l => map c0 l | None => [] end,
                       lons ++ match locs with Some l => map c1 l | None => [] end)).
  { intros lats lons. destruct locs as [l | ].
    - apply coordinates_loop. apply Hwf. reflexivity.
    - simpl. rewrite !app_nil_r. reflexivity. }
  unfold allLatitudes, allLongitudes.
  destruct nodes as [ns | ], arcs as [ars | ]; cbv zeta; cbv iota beta;
    rewrite outcome_bind, Hll; simpl app; rewrite <- ?app_assoc;
    (match goal with
     | |- outcome (match ?L with [] => _ | _ :: _ => _ end) = _ =>
         generalize L; intros [ | lat1 lats]
     end; [reflexivity | cbv iota]);
    (match goal with
     | |- outcome (match ?L with [] => _ | _ :: _ => _ end) = _ =>
         generalize L; intros [ | lon1 lons]
     end; [reflexivity | cbv iota]);
    destruct (Qlt_bool (Qabs (Qmaximum lat1 lats - Qminimum lat1 lats)) (1 # 10000));
    destruct (Qlt_bool (Qabs (Qmaximum lon1 lons - Qminimum lon1 lons)) (1 # 10000));
    reflexivity.
Qed.

(** X17.  The rectangle getMapBoundary returns encloses every latitude and
    longitude it was given: each latitude lies between the latitudes of the
    two corners returned, each longitude between their longitudes.  (Every
    step from the extreme coordinates to the corners moves outwards.) *)
Theorem getMapBoundary_encloses (nodes : option (list NodeRow))
    (arcs : option (list Row)) (locs : option (list Loc)) :
  valFlag (valGetMapBoundary nodes arcs locs) = true ->
  (forall l, locs = Some l -> Forall WellFormed l) ->
  allLatitudes nodes arcs locs <> [] ->
  exists southEast northWest,
    outcome (boundary nodes arcs locs) = Return (Rectangle southEast northWest)
    /\ (forall lat, In lat (allLatitudes nodes arcs locs) ->
                    c0 southEast <= lat /\ lat <= c0 northWest)
    /\ (forall lon, In lon (allLongitudes nodes arcs locs) ->
                    c1 northWest <= lon /\ lon <= c1 southEast).
Proof.
  intros Hv Hwf Hne. rewrite (coordinates_collected _ _ Hv Hwf).
  pose proof (coordinates_same_length nodes arcs locs) as Hlen.
  destruct (allLatitudes nodes arcs locs) as [ | lat1 lats]; [contradiction | ].
  destruct (allLongitudes nodes arcs locs) as [ | lon1 lons]; [discriminate | ].
  cbv zeta.
  pose proof (@Qmaximum_upper lat1 lats) as HmaxLat.
  pose proof (@Qminimum_lower lat1 lats) as HminLat.
  pose proof (@Qmaximum_upper lon1 lons) as HmaxLon.
  pose proof (@Qminimum_lower lon1 lons) as HminLon.
  destruct (Qlt_bool (Qabs (Qmaximum lat1 lats - Qminimum lat1 lats)) (1 # 10000));
    destruct (Qlt_bool (Qabs (Qmaximum lon1 lons - Qminimum lon1 lons)) (1 # 10000));
    (eexists; eexists; split; [reflexivity | ]);
    unfold c0, c1; cbn [nth];
    (split;
     [intros x Hx; specialize (HmaxLat x Hx); specialize (HminLat x Hx); lra
     | intros x Hx; specialize (HmaxLon x Hx); specialize (HminLon x Hx); lra]).
Qed.

(** X18.  When validation accepts a call that supplies no coordinates at
    all, getMapBoundary takes the maximum of an empty list and raises
    ValueError. *)
Theorem getMapBoundary_nothing_to_enclose (nodes : option (list NodeRow))
    (arcs : option (list Row)) (locs : option (list Loc)) :
  valFlag (valGetMapBoundary nodes arcs locs) = true ->
  allLatitudes nodes arcs locs = [] ->
  outcome (boundary nodes arcs locs) = Return RaisedValueError.
Proof.
  intros Hv Hempty. rewrite (coordinates_collected _ _ Hv).
  - rewrite Hempty. reflexivity.
  - intros l ->. unfold allLatitudes in Hempty.
    apply app_eq_nil in Hempty. destruct Hempty as [_ Hempty].
    apply app_eq_nil in Hempty. destruct Hempty as [_ Hempty].
    destruct l; [constructor | discriminate].
Qed.

End MapBoundaryFacts.

(** ** isPathInPoly, isPathCrossPoly and isPassPath *)

Section PathWrapperFacts.

Variable VRV_SETTING_SHOWWARNINGMESSAGE : bool.
Variable valIsPathInPoly : list Loc -> list Loc -> Validation.
Variable valIsPathCrossPoly : list Loc -> list Loc -> Validation.
Variable valIsPassPath : Loc -> list Loc -> Q -> Validation.
Variable geoIsPathInPoly : list Loc -> list Loc -> bool.
Variable geoIsPathCrossPoly : list Loc -> list Loc -> bool.
Variable geoIsPassPath : Loc -> list Loc -> Q -> bool.

Local Abbreviation pathInPoly :=
  (isPathInPoly VRV_SETTING_SHOWWARNINGMESSAGE valIsPathInPoly geoIsPathInPoly).
Local Abbreviation pathCrossPoly :=
  (isPathCrossPoly VRV_SETTING_SHOWWARNINGMESSAGE valIsPathCrossPoly
     geoIsPathCrossPoly).
Local Abbreviation passPath :=
  (isPassPath VRV_SETTING_SHOWWARNINGMESSAGE valIsPassPath geoIsPassPath).

Lemma isPathInPoly_value (path poly : list Loc) :
  valFlag (valIsPathInPoly path poly) = true ->
  Forall WellFormed path -> Forall WellFormed poly ->
  outcome (pathInPoly path poly)
  = Return (Some (geoIsPathInPoly (map flat path) (map flat poly))).
Proof.
  intros Hv Hpath Hpoly. unfold isPathInPoly. rewrite Hv. simpl negb. cbv iota.
  rewrite outcome_bind, report_warning_outcome.
  rewrite (strip2D_wellformed Hpath), bind_ret.
  rewrite (strip2D_wellformed Hpoly), bind_ret. reflexivity.
Qed.

Lemma isPathCrossPoly_value (path poly : list Loc) :
  valFlag (valIsPathCrossPoly path poly) = true ->
  Forall WellFormed path -> Forall WellFormed poly ->
  outcome (pathCrossPoly path poly)
  = Return (Some (geoIsPathCrossPoly (map flat path) (map flat poly))).
Proof.
  intros Hv Hpath Hpoly. unfold isPathCrossPoly. rewrite Hv. simpl negb. cbv iota.
  rewrite outcome_bind, report_warning_outcome.
  rewrite (strip2D_wellformed Hpath), bind_ret.
  rewrite (strip2D_wellformed Hpoly), bind_ret. reflexivity.
Qed.

(** X19.  isPathInPoly and isPathCrossPoly look only at latitude and
    longitude: two accepted calls whose paths and polygons agree in these
    give the same answer, whatever further components the locations
    carry. *)
Theorem path_in_poly_ignores_altitude (path path' poly poly' : list Loc) :
  Forall WellFormed path -> Forall WellFormed path' ->
  Forall WellFormed poly -> Forall WellFormed poly' ->
  map flat path = map flat path' ->
  map flat poly = map flat poly' ->
  (valFlag (valIsPathInPoly path poly) = true ->
   valFlag (valIsPathInPoly path' poly') = true ->
   outcome (pathInPoly path poly) = outcome (pathInPoly path' poly'))
  /\ (valFlag (valIsPathCrossPoly path poly) = true ->
      valFlag (valIsPathCrossPoly path' poly') = true ->
      outcome (pathCrossPoly path poly) = outcome (pathCrossPoly path' poly')).
Proof.
  intros Hp Hp' Hq Hq' Epath Epoly. split; intros Hv Hv'.
  - rewrite (isPathInPoly_value Hv Hp Hq), (isPathInPoly_value Hv' Hp' Hq').
    rewrite Epath, Epoly. reflexivity.
  - rewrite (isPathCrossPoly_value Hv Hp Hq),
      (isPathCrossPoly_value Hv' Hp' Hq').
    rewrite Epath, Epoly. reflexivity.
Qed.

Lemma isPassPath_value (loc : Loc) (path : list Loc) (tolerance : Q) :
  valFlag (valIsPassPath loc path tolerance) = true ->
  WellFormed loc -> Forall WellFormed path ->
  outcome (passPath loc path tolerance)
  = Return (Some (geoIsPassPath (flat loc) (map flat path) tolerance)).
Proof.
  intros Hv Hl Hp. unfold isPassPath. rewrite Hv. simpl negb. cbv iota.
  rewrite outcome_bind, report_warning_outcome.
  rewrite (getitem_0 Hl), bind_ret, (getitem_1 Hl), bind_ret.
  rewrite (strip2D_wellformed Hp), bind_ret. reflexivity.
Qed.

(** X20.  isPassPath looks only at the latitude and longitude of the
    location and of the path: two accepted calls that agree in these and in
    the tolerance give the same answer. *)
Theorem isPassPath_ignores_altitude (loc loc' : Loc) (path path' : list Loc)
    (tolerance : Q) :
  WellFormed loc -> WellFormed loc' ->
  Forall WellFormed path -> Forall WellFormed path' ->
  flat loc = flat loc' ->
  map flat path = map flat path' ->
  valFlag (valIsPassPath loc path tolerance) = true ->
  valFlag (valIsPassPath loc' path' tolerance) = true ->
  outcome (passPath loc path tolerance) = outcome (passPath loc' path' tolerance).
Proof.
  intros Hl Hl' Hp Hp' Eloc Epath Hv Hv'.
  rewrite (@isPassPath_value _ _ _ Hv Hl Hp), (@isPassPath_value _ _ _ Hv' Hl' Hp').
  rewrite Eloc, Epath. reflexivity.
Qed.

End PathWrapperFacts.

(** ** The further properties on explicit inputs *)

Ltac wellformed := unfold WellFormed; simpl; lia.

(** X1 on the grid route from [0, 0] to [1, 1]: one row per leg of the
    path. *)
Lemma getShapepoints2D_rows_follow_path_witness :
  exists path rows,
    outcome (runShapepoints 1 None None [0; 0] [1; 1] 520 (Some 10) "manhattan"
               None plainStyle None None)
    = Return (Some rows)
    /\ List.length path = 3%nat
    /\ List.length rows = (List.length path - 1)%nat
    /\ forall k r, nth_error rows k = Some r ->
                   Spans (nth k path []) (nth (S k) path []) r.
Proof.
  do 2 eexists. split; [vm_compute; reflexivity | ].
  split; [ | eapply (@getShapepoints2D_rows_follow_path planarDistance
                       acceptShapepoints true 10 providerTable (fun f => f)
                       (fun s e _ => straightRoute s e) straightRoute
                       (fun s e _ _ => straightRoute s e)
                       (fun s e _ _ => straightRoute s e)
                       1%Z None None [0; 0] [1; 1] 520 (Some 10) "manhattan" None
                       plainStyle None None);
             vm_compute; reflexivity].
  reflexivity.
Defined.

(** X2 on a call with an object ID and a model file. *)
Lemma getShapepoints2D_rows_carry_arguments_witness :
  exists rows r,
    outcome (runShapepoints 7 (Some "truck") (Some "models/truck.gltf")
               [0; 0] [1; 1] 520 (Some 10) "manhattan" None plainStyle None None)
    = Return (Some rows)
    /\ In r rows
    /\ Carries 7 (Some "truck") (Some "models/truck.gltf") plainStyle r.
Proof.
  do 2 eexists. split; [vm_compute; reflexivity | ].
  split; [left; reflexivity | ].
  eapply (@getShapepoints2D_rows_carry_arguments planarDistance
            acceptShapepoints true 10 providerTable (fun f => f)
            (fun s e _ => straightRoute s e) straightRoute
            (fun s e _ _ => straightRoute s e)
            (fun s e _ _ => straightRoute s e)
            7%Z (Some "truck") (Some "models/truck.gltf") [0; 0] [1; 1] 520
            (Some 10) "manhattan" None plainStyle None None).
  - vm_compute. reflexivity.
  - left. reflexivity.
Defined.


(** X10: a hundred square meters, asked for in square kilometers and in
    square feet. *)
Lemma convertArea_to_sqkm_is_to_sqft_witness :
  outcome (runConvertArea 100 "sqmeters" "SqKm")
  = outcome (runConvertArea 100 "sqmeters" "sqft").
Proof.
  apply (@convertArea_to_sqkm_is_to_sqft true acceptConversion areaUnits
           (107639 # 10000) (3861 # 10000000000) (1 # 1000000)
           100 "sqmeters" "SqKm" "sqft"); reflexivity.
Defined.

(** X16: the node nearest to the origin among three, of which the second
    and the third are equally near. *)
Lemma closestNode2Loc_nearest_witness :
  exists j node,
    nth_error threeNodes j = Some node
    /\ outcome (closestNode2Loc true planarDistance acceptLocPair acceptNodes
                  [0; 0] threeNodes)
       = Return (Some (nodeID node), Some (nodeDistance planarDistance [0; 0] node))
    /\ (forall n, In n threeNodes ->
                  nodeDistance planarDistance [0; 0] node
                  <= nodeDistance planarDistance [0; 0] n)
    /\ (forall i n, (i < j)%nat -> nth_error threeNodes i = Some n ->
                    nodeDistance planarDistance [0; 0] node
                    < nodeDistance planarDistance [0; 0] n).
Proof.
  apply (@closestNode2Loc_nearest true planarDistance acceptLocPair acceptNodes
           [0; 0] threeNodes).
  - reflexivity.
  - intros n Hn. reflexivity.
  - discriminate.
Defined.

(** X18: an empty Nodes dataframe and an empty list of locations. *)
Lemma getMapBoundary_nothing_to_enclose_witness :
  outcome (getMapBoundary true acceptBoundary (Some []) None (Some []))
  = Return RaisedValueError.
Proof.
  apply (@getMapBoundary_nothing_to_enclose true acceptBoundary (Some []) None
           (Some [])); reflexivity.
Defined.

(** X19: one path in the triangle, with two altitudes and with other
    ones. *)
Lemma path_in_poly_ignores_altitude_witness :
  outcome (isPathInPoly true acceptPaths everyPointInside pathHigh triangle)
  = outcome (isPathInPoly true acceptPaths everyPointInside pathLow triangle)
  /\ outcome (isPathCrossPoly true acceptPaths somePointEachSide pathHigh triangle)
     = outcome (isPathCrossPoly true acceptPaths somePointEachSide pathLow triangle).
Proof.
  assert (Hhigh : Forall WellFormed pathHigh).
  { repeat (constructor; [wellformed | ]). constructor. }
  assert (Hlow : Forall WellFormed pathLow).
  { repeat (constructor; [wellformed | ]). constructor. }
  assert (Htri : Forall WellFormed triangle).
  { repeat (constructor; [wellformed | ]). constructor. }
  destruct (@path_in_poly_ignores_altitude true acceptPaths acceptPaths
              everyPointInside somePointEachSide pathHigh pathLow triangle triangle
              Hhigh Hlow Htri Htri eq_refl eq_refl) as [Hin Hcross].
  split; [apply Hin | apply Hcross]; reflexivity.
Defined.

(** X20: a location and a path, with altitudes and without. *)
Lemma isPassPath_ignores_altitude_witness :
  outcome (isPassPath true acceptPass somePointNear [42; -78; 300] pathHigh
             (1 # 10))
  = outcome (isPassPath true acceptPass somePointNear [42; -78] pathLow (1 # 10)).
Proof.
  apply (@isPassPath_ignores_altitude true acceptPass somePointNear
           [42; -78; 300] [42; -78] pathHigh pathLow (1 # 10));
    try reflexivity; try wellformed;
    repeat (constructor; [wellformed | ]); constructor.
Defined.

(** X12: the node sequence 1, 2, 3 and node 4 after it. *)
Lemma lengthFromNodeSeq_extends_witness :
  exists part,
    outcome (lengthFromNodeSeq true acceptNodeSeq [1; 2; 3]%Z roadLengths)
    = Return (Some part)
    /\ outcome (lengthFromNodeSeq true acceptNodeSeq [1; 2; 3; 4]%Z roadLengths)
       = Return (Some (part + 5)).
Proof.
  eexists. split; [vm_compute; reflexivity | ].
  apply (@lengthFromNodeSeq_extends true acceptNodeSeq [1; 2]%Z 3%Z 4%Z roadLengths);
    reflexivity.
Defined.

(** X14: a path of two locations and a third after it. *)
Lemma distancePath2D_extends_witness :
  exists part,
    outcome (distancePath2D true planarDistance acceptLocs [[0; 0]; [0; 1]])
    = Return (Some part)
    /\ outcome (distancePath2D true planarDistance acceptLocs
                  [[0; 0]; [0; 1]; [1; 1]])
       = Return (Some (part + planarDistance [0; 1] [1; 1])).
Proof.
  eexists. split; [vm_compute; reflexivity | ].
  apply (@distancePath2D_extends true planarDistance acceptLocs
           [[0; 0]] [0; 1] [1; 1]); reflexivity.
Defined.

(** X17: the boundary of three nodes and two locations. *)
Lemma getMapBoundary_encloses_witness :
  exists southEast northWest,
    outcome (getMapBoundary true acceptBoundary (Some threeNodes) None
               (Some [[1; 2; 100]; [5; 0]]))
    = Return (Rectangle southEast northWest)
    /\ (forall lat,
          In lat (allLatitudes (Some threeNodes) None (Some [[1; 2; 100]; [5; 0]])) ->
          c0 southEast <= lat /\ lat <= c0 northWest)
    /\ (forall lon,
          In lon (allLongitudes (Some threeNodes) None (Some [[1; 2; 100]; [5; 0]])) ->
          c1 northWest <= lon /\ lon <= c1 southEast).
Proof.
  apply (@getMapBoundary_encloses true acceptBoundary (Some threeNodes) None
           (Some [[1; 2; 100]; [5; 0]])).
  - reflexivity.
  - intros l Hl. injection Hl as <-.
    repeat (constructor; [wellformed | ]). constructor.
  - discriminate.
Defined.
